(** * BlackPetaOS installer script: a shallow embedding of [installer.py]

    The script drives the [archinstall] library: it enables a set of
    entries in the library's global menu, lets the menu fill the shared
    configuration bag [archinstall.arguments], prepares the disks and then
    runs a fixed sequence of installer calls.

    The library is an external collaborator.  It is modelled as an oracle
    (a [World]) that answers every call, given the history of calls made so
    far, either with a value or with an exception.  The script itself is a
    program in a small state-and-exception monad whose state holds the
    configuration bag, the library's [storage] dictionary and the trace of
    library calls issued so far.

    The file has three parts: the model of the script, the vocabulary of the
    statements, and the proofs.  The main results are

    - [ask_user_questions_enables]: the menu entries that are enabled;
    - [base_packages_then_base_services], [blackarch_mirror_always_added],
      [default_kernel_is_linux_hardened]: literal arguments of the
      installation;
    - [commands_follow_users_and_custom_commands],
      [user_packages_forwarded_iff]: what depends on the configuration;
    - [shell_failure_is_swallowed], [library_failures_propagate]: exceptions;
    - [phases_are_ordered], [installation_only_reads_arguments]: the two
      phases and the configuration bag.

    Further results relate single calls to the configuration
    ([disk_steps_follow_the_layout] to
    [optional_steps_follow_the_configuration], [silent_run_asks_nothing]),
    to the answers of the library
    ([espeakup_only_with_accessibility_tools], [grub_only_on_uefi],
    [chroot_shell_needs_a_yes]) and to the [with] statement
    ([exit_is_called_once_iff_entered]); they say what a run depends on
    ([installation_depends_on_read_keys]), which configurations it needs
    ([nothing_is_built_without_layout_or_locale],
    [completion_needs_a_well_formed_configuration],
    [typed_configuration_fails_only_with_the_library]) and which steps a
    completed run has taken ([completed_run_backbone]); and they cover the
    menu ([menu_runs_last_with_three_mandatory_entries]) and the module's
    top level ([handler_and_installer_share_the_configuration]). *)

From stdpp Require Import base strings gmap list.

Open Scope string_scope.
Open Scope list_scope.

(** ** Python values that travel through the script *)

(** Enumerations of the library.  The script names one member of each
    ([Pre_mount], [NoEncryption], [Grub], [Required], [TrustAll]); the other
    members are kept abstract under their name. *)
Inductive DiskLayoutType := Pre_mount | OtherLayout (name : string).
Inductive EncryptionType := NoEncryption | OtherEncryption (name : string).
Inductive Bootloader := Grub | OtherBootloader (name : string).
Inductive SignCheck := Required | OtherSignCheck (name : string).
Inductive SignOption := TrustAll | OtherSignOption (name : string).

(** The objects the menu stores in the configuration bag, with the fields
    the script reads; whatever else they carry is kept in one more field. *)
Record DiskLayoutConfiguration := {
  config_type : DiskLayoutType;
  layout_detail : string
}.

Record DiskEncryption := {
  encryption_type : EncryptionType;
  encryption_detail : string
}.

Record LocaleConfiguration := {
  kb_layout : string;
  sys_lang : string;
  sys_enc : string
}.

Record CustomMirror := {
  mirror_name : string;
  mirror_url : string;
  sign_check : SignCheck;
  sign_option : SignOption
}.

Record MirrorConfiguration := {
  mirror_regions : list (string * list string);
  custom_mirrors : list CustomMirror
}.

Record User := {
  username : string;
  user_detail : string
}.

(** The values the script handles: what the bag holds, what the library
    returns and what the script builds itself.  Lists come as lists of
    strings, of users or of mirrors, a dictionary as [VRegions]; [VObject]
    is any other object of the library. *)
Inductive Value :=
| VNone
| VBool (b : bool)
| VInt (n : Z)
| VStr (s : string)
| VPath (p : string)
| VList (l : list string)
| VUser (u : User)
| VUsers (l : list User)
| VDiskLayout (c : DiskLayoutConfiguration)
| VDiskEncryption (c : DiskEncryption)
| VLocale (c : LocaleConfiguration)
| VMirrorConfig (c : MirrorConfiguration)
| VRegions (r : list (string * list string))
| VMirrors (l : list CustomMirror)
| VBootloader (b : Bootloader)
| VObject (repr : string).

#[global] Instance DiskLayoutType_eq_dec : EqDecision DiskLayoutType :=
  ltac:(solve_decision).
#[global] Instance EncryptionType_eq_dec : EqDecision EncryptionType :=
  ltac:(solve_decision).
#[global] Instance Bootloader_eq_dec : EqDecision Bootloader :=
  ltac:(solve_decision).
#[global] Instance SignCheck_eq_dec : EqDecision SignCheck :=
  ltac:(solve_decision).
#[global] Instance SignOption_eq_dec : EqDecision SignOption :=
  ltac:(solve_decision).
#[global] Instance DiskLayoutConfiguration_eq_dec : EqDecision DiskLayoutConfiguration :=
  ltac:(solve_decision).
#[global] Instance DiskEncryption_eq_dec : EqDecision DiskEncryption :=
  ltac:(solve_decision).
#[global] Instance LocaleConfiguration_eq_dec : EqDecision LocaleConfiguration :=
  ltac:(solve_decision).
#[global] Instance CustomMirror_eq_dec : EqDecision CustomMirror :=
  ltac:(solve_decision).
#[global] Instance MirrorConfiguration_eq_dec : EqDecision MirrorConfiguration :=
  ltac:(solve_decision).
#[global] Instance User_eq_dec : EqDecision User :=
  ltac:(solve_decision).
#[global] Instance Value_eq_dec : EqDecision Value :=
  ltac:(solve_decision).

(** ** Exceptions *)

(** [KeyError], [TypeError], [IndexError] and [AttributeError] are what the
    script's own expressions can raise; [LibraryError] stands for any
    exception class of the library that derives from [Exception];
    [KeyboardInterrupt] and [SystemExit] derive from [BaseException]
    only. *)
Inductive exn :=
| KeyError (key : string)
| TypeError
| IndexError
| AttributeError
| LibraryError (what : string)
| KeyboardInterrupt
| SystemExit (code : Z).

#[global] Instance exn_eq_dec : EqDecision exn :=
  ltac:(solve_decision).

(** [isinstance(e, Exception)]: what [except Exception] matches. *)
Definition is_Exception (e : exn) : bool :=
  match e with
  | KeyboardInterrupt | SystemExit _ => false
  | _ => true
  end.

Inductive Result (A : Type) :=
| Ok (a : A)
| Exc (e : exn).
Arguments Ok {A} a.
Arguments Exc {A} e.

(** ** Python operators used by the script *)

(** [bool(v)] *)
Definition truthy (v : Value) : bool :=
  match v with
  | VNone => false
  | VBool b => b
  | VInt n => negb (n =? 0)%Z
  | VStr s => negb (String.eqb s "")
  | VList l => negb (bool_decide (l = []))
  | VUsers l => negb (bool_decide (l = []))
  | VRegions r => negb (bool_decide (r = []))
  | VMirrors l => negb (bool_decide (l = []))
  | VPath _ | VUser _ | VDiskLayout _ | VDiskEncryption _ | VLocale _
  | VMirrorConfig _ | VBootloader _ | VObject _ => true
  end.

(** Does [needle] occur in [s] as a contiguous substring? *)
Fixpoint contains (needle s : string) : bool :=
  String.prefix needle s ||
  match s with
  | EmptyString => false
  | String _ rest => contains needle rest
  end.

(** [x in v] for a string [x] *)
Definition py_in (x : string) (v : Value) : Result bool :=
  match v with
  | VList l => Ok (bool_decide (x ∈ l))
  | VStr s => Ok (contains x s)
  | VUsers _ | VMirrors _ => Ok false
  | VRegions r => Ok (bool_decide (x ∈ r.*1))
  | _ => Exc TypeError
  end.

(** [v[0]] *)
Definition py_index0 (v : Value) : Result Value :=
  match v with
  | VList l => match l with [] => Exc IndexError | x :: _ => Ok (VStr x) end
  | VUsers l => match l with [] => Exc IndexError | u :: _ => Ok (VUser u) end
  | VMirrors l => match l with [] => Exc IndexError | _ :: _ => Ok (VObject "CustomMirror") end
  | VStr s => match s with EmptyString => Exc IndexError | String a _ => Ok (VStr (String a EmptyString)) end
  | VRegions _ => Exc (KeyError "0")
  | _ => Exc TypeError
  end.

(** [len(v)] *)
Definition py_len (v : Value) : Result nat :=
  match v with
  | VStr s => Ok (String.length s)
  | VList l => Ok (length l)
  | VUsers l => Ok (length l)
  | VRegions r => Ok (length r)
  | VMirrors l => Ok (length l)
  | _ => Exc TypeError
  end.

(** The items a [for] loop over [v] visits. *)
Definition py_iter (v : Value) : Result (list Value) :=
  match v with
  | VList l => Ok (VStr <$> l)
  | VUsers l => Ok (VUser <$> l)
  | VStr s => Ok ((λ a, VStr (String a EmptyString)) <$> String.list_ascii_of_string s)
  | VRegions r => Ok (VStr <$> r.*1)
  | VMirrors l => Ok ((λ _, VObject "CustomMirror") <$> l)
  | _ => Exc TypeError
  end.

(** [v != ''] *)
Definition py_ne_empty_str (v : Value) : bool :=
  match v with
  | VStr s => negb (String.eqb s "")
  | _ => true
  end.

(** [a == b].  [bool] is a subclass of [int], and the two list
    constructors share the empty list. *)
Definition py_norm (v : Value) : Value :=
  match v with
  | VBool b => VInt (if b then 1 else 0)
  | VUsers [] => VList []
  | VMirrors [] => VList []
  | _ => v
  end.

Definition py_eq (a b : Value) : bool := bool_decide (py_norm a = py_norm b).

(** Attribute reads: [AttributeError] on an object of another class. *)
Definition get_config_type (v : Value) : Result DiskLayoutType :=
  match v with VDiskLayout c => Ok (config_type c) | _ => Exc AttributeError end.

Definition get_encryption_type (v : Value) : Result EncryptionType :=
  match v with VDiskEncryption c => Ok (encryption_type c) | _ => Exc AttributeError end.

Definition get_mirror_regions (v : Value) : Result Value :=
  match v with VMirrorConfig c => Ok (VRegions (mirror_regions c)) | _ => Exc AttributeError end.

Definition get_custom_mirrors (v : Value) : Result Value :=
  match v with VMirrorConfig c => Ok (VMirrors (custom_mirrors c)) | _ => Exc AttributeError end.

Definition get_kb_layout (v : Value) : Result string :=
  match v with VLocale c => Ok (kb_layout c) | _ => Exc AttributeError end.

Definition get_username (v : Value) : Result string :=
  match v with VUser u => Ok (username u) | _ => Exc AttributeError end.

(** ** Library calls *)

(** One constructor per library entry point the script uses, with the
    arguments the script passes.  Methods of the [Installer] object bound
    by the [with] statement and of the [GlobalMenu] object carry no explicit
    receiver: the script has one of each.

    - [translate msg] is [str(_(msg))], the prompt as the library renders it;
    - [Menu_new prompt options default_option] is [menu.Menu(...)], and the
      reply to [Menu_run] is the [value] of the selection that [run()]
      returns;
    - [debug prefix v] is [debug(f"{prefix}{v}")]: the literal part of the
      f-string and the value formatted into it;
    - [Installer_exit exc] is [__exit__] as the [with] statement calls it,
      with the exception that left the body, if any. *)
Inductive Call :=
| GlobalMenu_new
| GlobalMenu_enable (selector : string) (mandatory : bool)
| GlobalMenu_run
| FilesystemHandler_new (disk_config disk_encryption : Value)
| perform_filesystem_operations
| info (msg : string)
| Installer_new (mountpoint disk_config disk_encryption kernels : Value)
| Installer_enter
| Installer_exit (exc : option exn)
| mount_ordered_layout
| sanity_check
| generate_key_files
| use_mirrors (regions : Value)
| add_custom_mirrors (l : Value)
| minimal_installation (testing multilib : bool) (hostname locale_config : Value)
| set_mirrors (mirror_config : Value)
| setup_swap (kind : string)
| has_uefi
| add_additional_packages (packages : Value)
| enable_service (services : Value)
| add_bootloader (bootloader : Value)
| copy_iso_network_config
| create_users (users : Value)
| set_timezone (zone : Value)
| activate_time_synchronization
| accessibility_tools_in_use
| enable_espeakup
| user_set_pw (user : string) (password : Value)
| set_keyboard_language (layout : string)
| run_custom_user_commands (commands : Value)
| genfstab
| translate (msg : string)
| Menu_yes_no
| Menu_yes
| Menu_new (prompt options default_option : Value)
| Menu_run
| drop_to_shell
| disk_layouts
| debug (prefix : string) (interpolated : Value).

#[global] Instance Call_eq_dec : EqDecision Call :=
  ltac:(solve_decision).

Inductive Reply :=
| Returned (v : Value)
| Raised (e : exn).

#[global] Instance Reply_eq_dec : EqDecision Reply :=
  ltac:(solve_decision).

(** A call together with what the library answered. *)
Definition Event : Type := Call * Reply.

(** The library as the script sees it.  [reply h c] is the outcome of call
    [c] after history [h].  [store_effect h c] is what a method of the
    [GlobalMenu] object, which was built around the configuration bag, does
    to that bag during the call. *)
Record World := {
  reply : list Event → Call → Reply;
  store_effect : list Event → Call → gmap string Value → gmap string Value
}.

(** ** Program state and the script monad *)

Record State := {
  arguments : gmap string Value;
  storage : gmap string Value;
  trace : list Event
}.

(** The state after one more library call. *)
Definition record_event (ev : Event) (st : State) : State :=
  {| arguments := arguments st; storage := storage st; trace := trace st ++ [ev] |}.

(** The state after the library has rewritten the configuration bag. *)
Definition set_arguments (a : gmap string Value) (st : State) : State :=
  {| arguments := a; storage := storage st; trace := trace st |}.

(** A statement of the script: it transforms the state and either yields a
    value or raises. *)
Definition M (A : Type) : Type := State → State * Result A.

Definition ret {A} (a : A) : M A := λ st, (st, Ok a).

Definition bind {A B} (m : M A) (f : A → M B) : M B :=
  λ st, match m st with
        | (st', Ok a) => f a st'
        | (st', Exc e) => (st', Exc e)
        end.

#[global] Instance M_ret : MRet M := @ret.
#[global] Instance M_bind : MBind M := λ A B f m, bind m f.

(** An expression evaluated by the script itself. *)
Definition lift {A} (r : Result A) : M A := λ st, (st, r).

(** [archinstall.arguments[k]] *)
Definition args_index (k : string) : M Value :=
  λ st, match arguments st !! k with
        | Some v => (st, Ok v)
        | None => (st, Exc (KeyError k))
        end.

(** [archinstall.arguments.get(k, d)] *)
Definition args_get (k : string) (d : Value) : M Value :=
  λ st, (st, Ok (default d (arguments st !! k))).

(** [archinstall.storage.get(k, d)] *)
Definition storage_get (k : string) (d : Value) : M Value :=
  λ st, (st, Ok (default d (storage st !! k))).

(** [if b: m] *)
Definition when (b : bool) (m : M Value) : M unit :=
  if b then _ ← m; mret tt else mret tt.

(** [for x in l: body] *)
Fixpoint for_each {A} (l : list A) (body : A → M unit) : M unit :=
  match l with
  | [] => mret tt
  | x :: rest => body x;; for_each rest body
  end.

(** [try: m  except Exception: pass] *)
Definition try_except_Exception_pass (m : M Value) : M unit :=
  λ st, match m st with
        | (st', Ok _) => (st', Ok tt)
        | (st', Exc e) => if is_Exception e then (st', Ok tt) else (st', Exc e)
        end.

Section Script.

Variable w : World.

(** A library call that is not handed the configuration bag. *)
Definition call (c : Call) : M Value :=
  λ st, let r := reply w (trace st) c in
        let st' := record_event (c, r) st in
        match r with
        | Returned v => (st', Ok v)
        | Raised e => (st', Exc e)
        end.

(** A method call on the [GlobalMenu] object, whose [data_store] is the
    configuration bag itself. *)
Definition call_menu (c : Call) : M Value :=
  λ st, let r := reply w (trace st) c in
        let st' := record_event (c, r)
                     (set_arguments (store_effect w (trace st) c (arguments st)) st) in
        match r with
        | Returned v => (st', Ok v)
        | Raised e => (st', Exc e)
        end.

(** [with Installer(...) as installation: body].  The body runs between
    [__enter__] and [__exit__]; a failing body hands its exception to
    [__exit__], which suppresses it by returning a true value. *)
Definition guarded_by_exit (body : M unit) : M unit :=
  λ st, match body st with
        | (st', Ok _) => (_ ← call (Installer_exit None); mret tt) st'
        | (st', Exc e) =>
            match call (Installer_exit (Some e)) st' with
            | (st'', Ok v) => if truthy v then (st'', Ok tt) else (st'', Exc e)
            | (st'', Exc e') => (st'', Exc e')
            end
        end.

Definition with_Installer (new : Call) (body : M unit) : M unit :=
  _ ← call new;
  _ ← call Installer_enter;
  guarded_by_exit body.

(** ** The script *)

Definition install_paru : list string := [
  "git clone https://aur.archlinux.org/paru.git";
  "cd paru";
  "makepkg -si --noconfirm"
].

Definition ask_user_questions : M unit :=
  _ ← call_menu GlobalMenu_new;
  _ ← call_menu (GlobalMenu_enable "archinstall-language" false);
  _ ← call_menu (GlobalMenu_enable "mirror_config" false);
  _ ← call_menu (GlobalMenu_enable "locale_config" false);
  _ ← call_menu (GlobalMenu_enable "disk_config" true);
  _ ← call_menu (GlobalMenu_enable "disk_encryption" false);
  _ ← call_menu (GlobalMenu_enable "bootloader" false);
  _ ← call_menu (GlobalMenu_enable "hostname" false);
  _ ← call_menu (GlobalMenu_enable "!root-password" true);
  _ ← call_menu (GlobalMenu_enable "!users" true);
  _ ← call_menu (GlobalMenu_enable "packages" false);
  _ ← call_menu (GlobalMenu_enable "parallel downloads" false);
  _ ← call_menu (GlobalMenu_enable "timezone" false);
  _ ← call_menu (GlobalMenu_enable "ntp" false);
  _ ← call_menu (GlobalMenu_enable "additional-repositories" false);
  _ ← call_menu (GlobalMenu_enable "__separator__" false);
  _ ← call_menu (GlobalMenu_enable "install" false);
  _ ← call_menu (GlobalMenu_enable "save_config" false);
  _ ← call_menu (GlobalMenu_enable "abort" false);
  _ ← call_menu GlobalMenu_run;
  mret tt.

Definition blackarch_mirror : CustomMirror := {|
  mirror_name := "Blackarch";
  mirror_url := "https://www.blackarch.org/blackarch/$repo/os/$arch";
  sign_check := Required;
  sign_option := TrustAll
|}.

Definition base_packages : list string := [
  "neovim"; "git"; "curl"; "wget"; "nmap"; "gnu-netcat"; "base-devel";
  "openssh"; "python"; "neofetch"; "rust"; "nodejs"; "yarn"; "npm"; "go";
  "ufw"; "python-pip"; "blackarch-keyring";
  "podman"; "nginx"; "mariadb"; "postgresql"; "cockpit"; "cockpit-machines";
  "cockpit-podman"; "cockpit-pcp"; "cockpit-storaged"
].

Definition base_services : list string := [
  "nginx"; "mariadb"; "postgresql"; "cockpit"; "sshd"
].

Definition mariadb_init : string :=
  "mariadb-install-db --user=mysql --basedir=/usr --datadir=/var/lib/mysql".

Definition postgres_init : string :=
  "sudo -u postgres initdb -D /var/lib/postgres/data".

(** [f'usermod -a -G docker {user.username}'] *)
Definition usermod_docker (name : string) : string :=
  "usermod -a -G docker " +:+ name.

Definition chroot_prompt : string :=
  "Would you like to chroot into the newly created installation and perform post-installation configuration?".

Definition post_install_tips : string :=
  "For post-installation tips, see https://wiki.archlinux.org/index.php/Installation_guide#Post-installation".

(** The body of the [with] block, lines 93-233. *)
Definition installation_steps (disk_config locale_config disk_encryption : Value)
    (enable_testing enable_multilib : bool) : M unit :=
  ct ← lift (get_config_type disk_config);
  when (negb (bool_decide (ct = Pre_mount))) (call mount_ordered_layout);;
  _ ← call sanity_check;
  ct ← lift (get_config_type disk_config);
  (if negb (bool_decide (ct = Pre_mount)) then
     if truthy disk_encryption then
       et ← lift (get_encryption_type disk_encryption);
       when (negb (bool_decide (et = NoEncryption))) (call generate_key_files)
     else mret tt
   else mret tt);;
  mirror_config ← args_get "mirror_config" VNone;
  (if truthy mirror_config then
     regions ← lift (get_mirror_regions mirror_config);
     (if truthy regions then
        regions ← lift (get_mirror_regions mirror_config);
        _ ← call (use_mirrors regions); mret tt
      else mret tt);;
     customs ← lift (get_custom_mirrors mirror_config);
     (if truthy customs then
        customs ← lift (get_custom_mirrors mirror_config);
        _ ← call (add_custom_mirrors customs); mret tt
      else mret tt)
   else mret tt);;
  _ ← call (add_custom_mirrors (VMirrors [blackarch_mirror]));
  hostname ← args_get "hostname" (VStr "archlinux");
  _ ← call (minimal_installation enable_testing enable_multilib hostname locale_config);
  mirror_config ← args_get "mirror_config" VNone;
  when (truthy mirror_config) (call (set_mirrors mirror_config));;
  swap ← args_get "swap" VNone;
  when (truthy swap) (call (setup_swap "zram"));;
  bootloader ← args_get "bootloader" VNone;
  (if py_eq bootloader (VBootloader Grub) then
     uefi ← call has_uefi;
     when (truthy uefi) (call (add_additional_packages (VStr "grub")))
   else mret tt);;
  _ ← call (add_additional_packages (VList base_packages));
  _ ← call (enable_service (VList base_services));
  bootloader ← args_index "bootloader";
  _ ← call (add_bootloader bootloader);
  _ ← call copy_iso_network_config;
  users ← args_get "!users" VNone;
  when (truthy users) (call (create_users users));;
  packages ← args_get "packages" VNone;
  (if truthy packages then
     packages ← args_get "packages" VNone;
     first ← lift (py_index0 packages);
     if py_ne_empty_str first then
       packages ← args_get "packages" (VList []);
       _ ← call (add_additional_packages packages); mret tt
     else mret tt
   else mret tt);;
  timezone ← args_get "timezone" VNone;
  when (truthy timezone) (call (set_timezone timezone));;
  ntp ← args_get "ntp" (VBool false);
  when (truthy ntp) (call activate_time_synchronization);;
  accessibility ← call accessibility_tools_in_use;
  when (truthy accessibility) (call enable_espeakup);;
  root_pw ← args_get "!root-password" VNone;
  (if truthy root_pw then
     n ← lift (py_len root_pw);
     when (negb (n =? 0)%nat) (call (user_set_pw "root" root_pw))
   else mret tt);;
  layout ← lift (get_kb_layout locale_config);
  _ ← call (set_keyboard_language layout);
  services ← args_get "services" VNone;
  (if truthy services then
     services ← args_get "services" (VList []);
     _ ← call (enable_service services); mret tt
   else mret tt);;
  _ ← call (run_custom_user_commands (VList install_paru));
  _ ← call (run_custom_user_commands (VList [mariadb_init]));
  users ← args_get "!users" (VList []);
  items ← lift (py_iter users);
  for_each items (λ user,
    name ← lift (get_username user);
    _ ← call (run_custom_user_commands (VList [usermod_docker name]));
    mret tt);;
  _ ← call (run_custom_user_commands (VList [postgres_init]));
  custom ← args_get "custom-commands" VNone;
  (if truthy custom then
     custom ← args_index "custom-commands";
     _ ← call (run_custom_user_commands custom); mret tt
   else mret tt);;
  _ ← call genfstab;
  _ ← call (info post_install_tips);
  silent ← args_get "silent" VNone;
  if negb (truthy silent) then
    prompt ← call (translate chroot_prompt);
    options ← call Menu_yes_no;
    yes ← call Menu_yes;
    _ ← call (Menu_new prompt options yes);
    choice ← call Menu_run;
    yes ← call Menu_yes;
    if py_eq choice yes then
      try_except_Exception_pass (call drop_to_shell)
    else mret tt
  else mret tt.

Definition perform_installation (mountpoint : Value) : M unit :=
  _ ← call (info "Starting installation");
  disk_config ← args_index "disk_config";
  repos ← args_get "additional-repositories" (VList []);
  enable_testing ← lift (py_in "testing" repos);
  repos ← args_get "additional-repositories" (VList []);
  enable_multilib ← lift (py_in "multilib" repos);
  locale_config ← args_index "locale_config";
  disk_encryption ← args_get "disk_encryption" VNone;
  kernels ← args_get "kernels" (VList ["linux-hardened"]);
  with_Installer (Installer_new mountpoint disk_config disk_encryption kernels)
    (installation_steps disk_config locale_config disk_encryption
       enable_testing enable_multilib);;
  layouts ← call disk_layouts;
  _ ← call (debug "Disk states after installing: " layouts);
  mret tt.

(** Module top level after the questions, lines 240-247. *)
Definition prepare_and_install : M unit :=
  disk_config ← args_index "disk_config";
  disk_encryption ← args_get "disk_encryption" VNone;
  _ ← call (FilesystemHandler_new disk_config disk_encryption);
  _ ← call perform_filesystem_operations;
  mountpoint ← storage_get "MOUNT_POINT" (VPath "/mnt");
  perform_installation mountpoint.

(** Module top level, lines 238-247. *)
Definition script : M unit :=
  ask_user_questions;;
  prepare_and_install.

(** Menu calls issued one after the other, the first failure ending the
    sequence: the shape of [ask_user_questions]. *)
Fixpoint issue (cs : list Call) : M unit :=
  match cs with
  | [] => mret tt
  | c :: rest => _ ← call_menu c; issue rest
  end.

End Script.

(** * Vocabulary of the statements *)

(** ** Triples *)

(** [triple a0 T m Q E]: started with configuration bag [a0] and a trace
    satisfying [T], program [m] leaves the bag as it found it and ends
    either normally with a trace satisfying [Q], or with an exception [e]
    and a trace satisfying [E e]. *)
Definition triple (a0 : gmap string Value) {A}
    (T : list Event → Prop) (m : M A)
    (Q : A → list Event → Prop) (E : exn → list Event → Prop) : Prop :=
  ∀ st, arguments st = a0 → T (trace st) →
    arguments (m st).1 = a0 ∧
    match (m st).2 with
    | Ok a => Q a (trace (m st).1)
    | Exc e => E e (trace (m st).1)
    end.

(** ** Traces *)

(** The trace extends [t0] by events that satisfy [I]. *)
Definition since (t0 : list Event) (I : list Event → Prop) (tr : list Event) : Prop :=
  ∃ evs, tr = t0 ++ evs ∧ I evs.

(** The calls of [evs] end with the calls [pat], in this order. *)
Definition ends_with (pat : list Call) (evs : list Event) : Prop :=
  ∃ pre, evs.*1 = pre ++ pat.

(** The calls [pat] were issued one right after the other. *)
Definition issued_in_a_row (pat : list Call) (evs : list Event) : Prop :=
  ∃ pre post, evs.*1 = pre ++ pat ++ post.

(** Every call selected by [marker] comes right after the calls [pat]. *)
Definition preceded_by (marker : Call → Prop) (pat : list Call)
    (evs : list Event) : Prop :=
  ∀ pre c x post, evs = pre ++ (c, x) :: post → marker c → ends_with pat pre.

Definition is_add_bootloader (c : Call) : Prop :=
  match c with add_bootloader _ => True | _ => False end.

Definition is_minimal_installation (c : Call) : Prop :=
  match c with minimal_installation _ _ _ _ => True | _ => False end.

(** What a trace shows of one kind of call. *)
Definition observe {X} (f : Call → option X) (tr : list Event) : list X :=
  omap (λ ev, f ev.1) tr.

(** [Installer.__exit__] is code of the library.  Section 7 of the
    specification has failures "propagate to the external library's own
    error handling and terminate the script"; as a property of the library:
    [__exit__] neither suppresses nor replaces the exception it is handed,
    it returns a false value or raises that same exception again. *)
Definition exit_hands_back (w : World) : Prop :=
  ∀ h e, match reply w h (Installer_exit (Some e)) with
         | Returned v => truthy v = false
         | Raised e' => e' = e
         end.

(** ** Commands, packages and kernels *)

(** The command lists handed to [run_custom_user_commands], in order. *)
Definition commands_run : list Event → list Value :=
  observe (λ c, match c with run_custom_user_commands v => Some v | _ => None end).

(** The package lists handed to [add_additional_packages], in order (the
    single package name 'grub' is passed as a string, not as a list). *)
Definition package_lists : list Event → list (list string) :=
  observe (λ c, match c with add_additional_packages (VList l) => Some l | _ => None end).

(** The user names of a list of users. *)
Definition usernames (v : Value) : list string :=
  match v with VUsers l => username <$> l | _ => [] end.

(** One [usermod] command list per user name. *)
Definition usermod_commands (names : list string) : list Value :=
  (λ name, VList [usermod_docker name]) <$> names.

(** The command lists the installation phase runs for configuration [a]:
    three literal blocks, one [usermod] per user in between, and the
    configured custom commands at the end. *)
Definition post_install_commands (a : gmap string Value) : list Value :=
  [VList install_paru; VList [mariadb_init]] ++
  usermod_commands (usernames (default (VList []) (a !! "!users"))) ++
  [VList [postgres_init]] ++
  (if truthy (default VNone (a !! "custom-commands"))
   then [default VNone (a !! "custom-commands")] else []).

(** The user names among the items a loop visits. *)
Definition item_names (items : list Value) : list string :=
  omap (λ v, match v with VUser u => Some (username u) | _ => None end) items.

(** Every item is a user object. *)
Definition all_users (items : list Value) : Prop :=
  Forall (λ v, ∃ u, v = VUser u) items.

(** The calls [perform_installation] issues around the [with] body. *)
Definition housekeeping (c : Call) : Prop :=
  match c with
  | info _ | Installer_new _ _ _ _ | Installer_enter | Installer_exit _
  | disk_layouts | debug _ _ => True
  | _ => False
  end.

(** A call that builds the [Installer] does so with the hardened kernel. *)
Definition builds_hardened (c : Call) : Prop :=
  match c with
  | Installer_new _ _ _ kernels => kernels = VList ["linux-hardened"]
  | _ => True
  end.

(** No [Installer] was built with another kernel list. *)
Definition only_hardened (evs : list Event) : Prop :=
  Forall (λ ev, builds_hardened ev.1) evs.

(** An [Installer] for mount point [mp] was built, with the hardened
    kernel. *)
Definition hardened_built (mp : Value) (evs : list Event) : Prop :=
  only_hardened evs ∧
  ∃ dc de, Installer_new mp dc de (VList ["linux-hardened"]) ∈ evs.*1.

(** ** The menu *)

(** The entries [ask_user_questions] enables, in source order, with their
    [mandatory] flag. *)
Definition menu_entries : list (string * bool) := [
  ("archinstall-language", false);
  ("mirror_config", false);
  ("locale_config", false);
  ("disk_config", true);
  ("disk_encryption", false);
  ("bootloader", false);
  ("hostname", false);
  ("!root-password", true);
  ("!users", true);
  ("packages", false);
  ("parallel downloads", false);
  ("timezone", false);
  ("ntp", false);
  ("additional-repositories", false);
  ("__separator__", false);
  ("install", false);
  ("save_config", false);
  ("abort", false)
].

(** The calls of [ask_user_questions], in source order. *)
Definition menu_calls : list Call :=
  GlobalMenu_new ::
  ((λ entry, GlobalMenu_enable entry.1 entry.2) <$> menu_entries) ++
  [GlobalMenu_run].

(** The selectors a trace shows as enabled: the [enable] calls that
    returned. *)
Definition enabled_selectors (evs : list Event) : list string :=
  omap (λ ev, match ev with
              | (GlobalMenu_enable selector _, Returned _) => Some selector
              | _ => None
              end) evs.

(** The call of the event returned. *)
Definition returned (ev : Event) : Prop := ∃ v, ev.2 = Returned v.

(** The thirteen menu entries that section 6 of the specification lists
    (disk, mirrors, locale, encryption, bootloader, hostname, root password,
    users, packages, parallel downloads, timezone, NTP, additional repos),
    under the selector names the script uses for them. *)
Definition spec_menu_entries : list string := [
  "disk_config"; "mirror_config"; "locale_config"; "disk_encryption";
  "bootloader"; "hostname"; "!root-password"; "!users"; "packages";
  "parallel downloads"; "timezone"; "ntp"; "additional-repositories"
].

(** ** Failures *)

(** An event that does not end the run: a call that returned, or a
    [drop_to_shell] that raised (inside its [try]). *)
Definition passed (ev : Event) : Prop :=
  match ev with
  | (c, Raised _) => c = drop_to_shell
  | _ => True
  end.

(** No call so far has ended the run. *)
Definition no_failure (evs : list Event) : Prop := Forall passed evs.

(** The run ended with [e] inside or before the [with] body: [e] came from
    an expression of the script, or from the last call issued. *)
Definition failed_at (e : exn) (evs : list Event) : Prop :=
  no_failure evs ∨ ∃ pre c, evs = pre ++ [(c, Raised e)] ∧ no_failure pre.

(** The reply of an [__exit__] that lets [e] through. *)
Definition handed_back (e : exn) (x : Reply) : Prop :=
  match x with
  | Returned v => truthy v = false
  | Raised e' => e' = e
  end.

(** The run ended with [e]: as [failed_at], possibly followed by the one
    [__exit__] call of the [with] statement. *)
Definition propagated (e : exn) (evs : list Event) : Prop :=
  failed_at e evs ∨
  ∃ pre x, evs = pre ++ [(Installer_exit (Some e), x)] ∧ handed_back e x ∧
           failed_at e pre.

(** A failure of a library call other than [drop_to_shell] ends the run:
    its exception is the run's result, and nothing is issued after the
    failing call but, inside the [with] block, the one [__exit__] call of
    the context-manager protocol. *)
Definition failures_escape (before after : list Event) (r : Result unit) : Prop :=
  ∀ pre c e post,
    after = before ++ pre ++ (c, Raised e) :: post →
    c ≠ drop_to_shell →
    r = Exc e ∧ (post = [] ∨ ∃ x, post = [(Installer_exit (Some e), x)]).

(** No [drop_to_shell] failure of class [Exception] has happened. *)
Definition not_caught (ev : Event) : Prop :=
  match ev with
  | (drop_to_shell, Raised e) => is_Exception e = false
  | _ => True
  end.

(** The [try] around [drop_to_shell] has swallowed nothing so far. *)
Definition nothing_caught (evs : list Event) : Prop := Forall not_caught evs.

(** [drop_to_shell] raised [e], of class [Exception], and [tail] is what
    the run issued afterwards. *)
Definition caught_then (tail : list Event) (evs : list Event) : Prop :=
  ∃ pre e, evs = pre ++ (drop_to_shell, Raised e) :: tail ∧
           nothing_caught pre ∧ is_Exception e = true.

(** What follows a caught failure: the [__exit__] call of a [with] block
    left without exception, then calls other than [drop_to_shell]. *)
Definition leaves_block (tail : list Event) : Prop :=
  (∃ x rest, tail = (Installer_exit None, x) :: rest) ∧ nothing_caught tail.

(** The events of a run that ended with [r], as far as a swallowed
    [drop_to_shell] failure is concerned: none was swallowed, or one was,
    the [with] block was left normally after it, and the calls after it all
    returned ([r] is normal) or the last of them raised what [r] carries. *)
Definition after_shell (r : Result unit) (evs : list Event) : Prop :=
  nothing_caught evs ∨
  ∃ tail, caught_then tail evs ∧ leaves_block tail ∧
          match r with
          | Ok _ => Forall returned tail
          | Exc e => ∃ c, last tail = Some (c, Raised e)
          end.

(** ** Phases *)

Inductive Phase := Asking | Preparing | Installing.

#[global] Instance Phase_eq_dec : EqDecision Phase :=
  ltac:(solve_decision).

(** The phase a library call belongs to: the global menu, the filesystem
    handler, or the installation proper. *)
Definition phase (c : Call) : Phase :=
  match c with
  | GlobalMenu_new | GlobalMenu_enable _ _ | GlobalMenu_run => Asking
  | FilesystemHandler_new _ _ | perform_filesystem_operations => Preparing
  | _ => Installing
  end.

(** All events belong to phase [p]. *)
Definition all_in (p : Phase) (evs : list Event) : Prop :=
  Forall (λ ev, phase ev.1 = p) evs.

(** Disk preparation, then installation; nothing is installed before
    [perform_filesystem_operations] has returned. *)
Definition prepared_then_installed (evs : list Event) : Prop :=
  ∃ prepared installed,
    evs = prepared ++ installed ∧
    all_in Preparing prepared ∧ all_in Installing installed ∧
    (installed ≠ [] →
     ∃ v, last prepared = Some (perform_filesystem_operations, Returned v)).

(** ** Sample libraries and configurations *)

(** A configuration as the menu leaves it, for the users [names]. *)
Definition sample_arguments (names : list string) : gmap string Value :=
  list_to_map [
    ("disk_config",
     VDiskLayout {| config_type := OtherLayout "Default"; layout_detail := "/dev/sda" |});
    ("locale_config",
     VLocale {| kb_layout := "us"; sys_lang := "en_US"; sys_enc := "UTF-8" |});
    ("bootloader", VBootloader Grub);
    ("!users", VUsers ((λ name, {| username := name; user_detail := "sudo" |}) <$> names));
    ("packages", VList ["htop"])
  ].

(** A library in which the calls selected by [failing] raise and every
    other call returns; the menus answer 'yes', the machine has UEFI,
    [__exit__] raises again the exception it is handed, and the global menu
    stores [sample_arguments] for one user when it is run. *)
Definition library (failing : Call → option exn) : World := {|
  reply := λ _ c,
    match failing c with
    | Some e => Raised e
    | None =>
        match c with
        | Installer_exit (Some e) => Raised e
        | Menu_yes | Menu_run => Returned (VStr "yes")
        | has_uefi => Returned (VBool true)
        | _ => Returned VNone
        end
    end;
  store_effect := λ _ c a,
    match c with
    | GlobalMenu_run => sample_arguments ["alice"]
    | _ => a
    end
|}.

(** The library in which every call returns. *)
Definition compliant : World := library (λ _, None).

(** The library in which the chroot shell ends with [e]. *)
Definition shell_raising (e : exn) : World :=
  library (λ c, match c with drop_to_shell => Some e | _ => None end).

(** The library in which [sanity_check] fails. *)
Definition sanity_check_failing : World :=
  library (λ c, match c with sanity_check => Some (LibraryError "sanity_check") | _ => None end).

(** The state the script starts in. *)
Definition fresh : State := {| arguments := ∅; storage := ∅; trace := [] |}.

(** The state after the questions, for the users [names]. *)
Definition configured (names : list string) : State :=
  {| arguments := sample_arguments names; storage := ∅; trace := [] |}.

(** [Path('/mnt')] *)
Definition mnt : Value := VPath "/mnt".

(** The installation run in which [sanity_check] fails. *)
Definition run_without_sanity : State * Result unit :=
  perform_installation sanity_check_failing mnt (configured ["alice"]).

(** The installation run in which the chroot shell ends with a library
    error. *)
Definition run_with_broken_shell : State * Result unit :=
  perform_installation (shell_raising (LibraryError "shell")) mnt (configured ["alice"]).

(** The installation run in which the chroot shell is interrupted from the
    keyboard. *)
Definition run_with_interrupted_shell : State * Result unit :=
  perform_installation (shell_raising KeyboardInterrupt) mnt (configured ["alice"]).

(** A configuration whose package list starts with the empty string. *)
Definition configured_with_empty_package : State :=
  {| arguments := <["packages" := VList [""; "htop"]]> (sample_arguments []);
     storage := ∅; trace := [] |}.

(** ** What the configuration calls for *)

(** What configuration [a] and mount point [mp] must be like for the
    installation phase to issue call [c]: the conditions of the branches
    the call sits in, and where its arguments come from.  The calls of the
    other two phases are never issued. *)
Definition called_for (a : gmap string Value) (mp : Value) (c : Call) : Prop :=
  match c with
  | GlobalMenu_new | GlobalMenu_enable _ _ | GlobalMenu_run
  | FilesystemHandler_new _ _ | perform_filesystem_operations => False
  | Installer_new m dc de kernels =>
      m = mp ∧ a !! "disk_config" = Some dc ∧
      de = default VNone (a !! "disk_encryption") ∧
      kernels = default (VList ["linux-hardened"]) (a !! "kernels")
  | mount_ordered_layout =>
      ∃ dc ct, a !! "disk_config" = Some dc ∧ get_config_type dc = Ok ct ∧
               ct ≠ Pre_mount
  | generate_key_files =>
      (∃ dc ct, a !! "disk_config" = Some dc ∧ get_config_type dc = Ok ct ∧
                ct ≠ Pre_mount) ∧
      truthy (default VNone (a !! "disk_encryption")) = true ∧
      ∃ et, get_encryption_type (default VNone (a !! "disk_encryption")) = Ok et ∧
            et ≠ NoEncryption
  | use_mirrors regions =>
      truthy (default VNone (a !! "mirror_config")) = true ∧
      get_mirror_regions (default VNone (a !! "mirror_config")) = Ok regions ∧
      truthy regions = true
  | add_custom_mirrors l =>
      l = VMirrors [blackarch_mirror] ∨
      (truthy (default VNone (a !! "mirror_config")) = true ∧
       get_custom_mirrors (default VNone (a !! "mirror_config")) = Ok l ∧
       truthy l = true)
  | minimal_installation testing multilib hostname locale_config =>
      py_in "testing" (default (VList []) (a !! "additional-repositories")) = Ok testing ∧
      py_in "multilib" (default (VList []) (a !! "additional-repositories")) = Ok multilib ∧
      hostname = default (VStr "archlinux") (a !! "hostname") ∧
      a !! "locale_config" = Some locale_config
  | set_mirrors mirror_config =>
      mirror_config = default VNone (a !! "mirror_config") ∧
      truthy mirror_config = true
  | setup_swap kind =>
      kind = "zram" ∧ truthy (default VNone (a !! "swap")) = true
  | has_uefi =>
      py_eq (default VNone (a !! "bootloader")) (VBootloader Grub) = true
  | add_additional_packages packages =>
      (packages = VStr "grub" ∧
       py_eq (default VNone (a !! "bootloader")) (VBootloader Grub) = true) ∨
      packages = VList base_packages ∨
      (packages = default (VList []) (a !! "packages") ∧
       truthy (default VNone (a !! "packages")) = true)
  | enable_service services =>
      services = VList base_services ∨
      (services = default (VList []) (a !! "services") ∧
       truthy (default VNone (a !! "services")) = true)
  | add_bootloader bootloader => a !! "bootloader" = Some bootloader
  | create_users users =>
      users = default VNone (a !! "!users") ∧ truthy users = true
  | set_timezone zone =>
      zone = default VNone (a !! "timezone") ∧ truthy zone = true
  | activate_time_synchronization =>
      truthy (default (VBool false) (a !! "ntp")) = true
  | user_set_pw user password =>
      user = "root" ∧ password = default VNone (a !! "!root-password") ∧
      truthy password = true ∧
      ∃ n, py_len password = Ok n ∧ n ≠ 0
  | set_keyboard_language layout =>
      ∃ lc, a !! "locale_config" = Some lc ∧ get_kb_layout lc = Ok layout
  | translate _ | Menu_yes_no | Menu_yes | Menu_new _ _ _ | Menu_run | drop_to_shell =>
      truthy (default VNone (a !! "silent")) = false
  | info _ | Installer_enter | Installer_exit _ | sanity_check
  | copy_iso_network_config | accessibility_tools_in_use | enable_espeakup
  | run_custom_user_commands _ | genfstab | disk_layouts | debug _ _ => True
  end.

(** Every call of [evs] is called for. *)
Definition all_called_for (a : gmap string Value) (mp : Value)
    (evs : list Event) : Prop :=
  Forall (λ ev, called_for a mp ev.1) evs.

(** The events of a run of [perform_installation] from state [st]: what the
    run appends to the trace. *)
Definition installation_events (w : World) (mp : Value) (st : State) : list Event :=
  drop (length (trace st)) (trace (perform_installation w mp st).1).

(** The calls the run issues, in order. *)
Definition installation_calls (w : World) (mp : Value) (st : State) : list Call :=
  (installation_events w mp st).*1.

(** The calls that talk to the user at the end of the installation: the
    prompt, the yes/no menu and the chroot shell. *)
Definition interactive (c : Call) : Prop :=
  match c with
  | translate _ | Menu_yes_no | Menu_yes | Menu_new _ _ _ | Menu_run
  | drop_to_shell => True
  | _ => False
  end.

(** ** Steps that wait for an answer *)

(** Every call [marker] is issued at a point where the events so far
    satisfy [P]. *)
Definition only_after (marker : Call) (P : list Event → Prop)
    (evs : list Event) : Prop :=
  ∀ pre x post, evs = pre ++ (marker, x) :: post → P pre.

(** The last event is call [q], which returned a value that is true. *)
Definition answered (q : Call) (pre : list Event) : Prop :=
  ∃ pre' v, pre = pre' ++ [(q, Returned v)] ∧ truthy v = true.

(** The last two events are the menu's [run()], which returned the user's
    choice, and [Menu.yes()], which returned a value equal to it. *)
Definition answered_yes (pre : list Event) : Prop :=
  ∃ pre' choice yes,
    pre = pre' ++ [(Menu_run, Returned choice); (Menu_yes, Returned yes)] ∧
    py_eq choice yes = true.

(** ** What the installation depends on *)

(** The entries of the configuration bag that [perform_installation] reads. *)
Definition read_keys : list string := [
  "disk_config"; "additional-repositories"; "locale_config"; "disk_encryption";
  "kernels"; "mirror_config"; "hostname"; "swap"; "bootloader"; "!users";
  "packages"; "timezone"; "ntp"; "!root-password"; "services";
  "custom-commands"; "silent"
].

(** Two configurations with the same entries under [keys]. *)
Definition agree_on (keys : list string) (a1 a2 : gmap string Value) : Prop :=
  ∀ k, k ∈ keys → a1 !! k = a2 !! k.

(** Program [m] ends the same way, with the same trace, from any two states
    that have the same trace and agree on the entries that are read. *)
Definition same_outcome {A} (m : M A) : Prop :=
  ∀ st1 st2,
    trace st1 = trace st2 →
    agree_on read_keys (arguments st1) (arguments st2) →
    (m st1).2 = (m st2).2 ∧ trace (m st1).1 = trace (m st2).1 ∧
    agree_on read_keys (arguments (m st1).1) (arguments (m st2).1).

(** ** The [with] statement *)

(** The [__exit__] calls of a trace: what each was handed. *)
Definition exits : list Event → list (option exn) :=
  observe (λ c, match c with Installer_exit exc => Some exc | _ => None end).

(** [__enter__] has returned: the [with] body was entered. *)
Definition entered (evs : list Event) : Prop :=
  ∃ v, (Installer_enter, Returned v) ∈ evs.

(** The three stages of the [with] statement: the body has not been
    entered; it has been entered and not left; it has been left, by one
    [__exit__] call. *)
Definition before_body (evs : list Event) : Prop := exits evs = [] ∧ ¬ entered evs.

Definition in_body (evs : list Event) : Prop := exits evs = [] ∧ entered evs.

Definition after_body (evs : list Event) : Prop := (∃ exc, exits evs = [exc]) ∧ entered evs.

(** ** What a completed run needs *)

(** The configuration has a disk layout, a locale and a bootloader, and
    what it holds under 'additional-repositories' and '!users' can be
    searched and iterated (an absent entry counts as the empty list). *)
Definition well_formed (a : gmap string Value) : Prop :=
  (∃ c, a !! "disk_config" = Some (VDiskLayout c)) ∧
  (∃ lc, a !! "locale_config" = Some (VLocale lc)) ∧
  (∃ b, a !! "bootloader" = Some b) ∧
  (∃ testing, py_in "testing" (default (VList []) (a !! "additional-repositories"))
                = Ok testing) ∧
  (∃ items, py_iter (default (VList []) (a !! "!users")) = Ok items).

(** ** The module's top level *)

(** The events of a run of [ask_user_questions] from state [st]. *)
Definition question_events (w : World) (st : State) : list Event :=
  drop (length (trace st)) (trace (ask_user_questions w st).1).

(** The calls issued by the top level after the questions, from state
    [st]. *)
Definition top_level_calls (w : World) (st : State) : list Call :=
  (drop (length (trace st)) (trace (prepare_and_install w st).1)).*1.

(** ** Typed configurations *)

(** Every entry the script takes apart is of the class the script expects:
    the three entries it cannot do without are there, and the optional ones
    are absent, [None], or of their class. *)
Definition typed (a : gmap string Value) : Prop :=
  (∃ c, a !! "disk_config" = Some (VDiskLayout c)) ∧
  (∃ lc, a !! "locale_config" = Some (VLocale lc)) ∧
  (∃ b, a !! "bootloader" = Some b) ∧
  (∀ v, a !! "additional-repositories" = Some v → ∃ l, v = VList l) ∧
  (∀ v, a !! "disk_encryption" = Some v → v = VNone ∨ ∃ e, v = VDiskEncryption e) ∧
  (∀ v, a !! "mirror_config" = Some v → v = VNone ∨ ∃ mc, v = VMirrorConfig mc) ∧
  (∀ v, a !! "!users" = Some v → ∃ l, v = VUsers l) ∧
  (∀ v, a !! "packages" = Some v → v = VNone ∨ ∃ l, v = VList l) ∧
  (∀ v, a !! "!root-password" = Some v → v = VNone ∨ ∃ s, v = VStr s).

(** Some call of [evs] raised. *)
Definition some_call_raised (evs : list Event) : Prop :=
  ∃ c e, (c, Raised e) ∈ evs.

(** ** The backbone of a run *)



(** ** More sample libraries and configurations *)

(** A configuration with every optional entry set. *)
Definition full_arguments : gmap string Value :=
  list_to_map [
    ("disk_config",
     VDiskLayout {| config_type := OtherLayout "Default"; layout_detail := "/dev/sda" |});
    ("disk_encryption",
     VDiskEncryption {| encryption_type := OtherEncryption "Luks";
                        encryption_detail := "/dev/sda2" |});
    ("locale_config",
     VLocale {| kb_layout := "de"; sys_lang := "de_DE"; sys_enc := "UTF-8" |});
    ("mirror_config",
     VMirrorConfig {|
       mirror_regions := [("Germany", ["https://mirror.example/$repo/os/$arch"])];
       custom_mirrors := [{| mirror_name := "local";
                             mirror_url := "https://local.example/$repo";
                             sign_check := Required;
                             sign_option := TrustAll |}] |});
    ("additional-repositories", VList ["multilib"]);
    ("kernels", VList ["linux"]);
    ("hostname", VStr "peta");
    ("swap", VBool true);
    ("bootloader", VBootloader Grub);
    ("!users", VUsers [{| username := "alice"; user_detail := "sudo" |}]);
    ("packages", VList ["htop"]);
    ("timezone", VStr "Europe/Berlin");
    ("ntp", VBool true);
    ("!root-password", VStr "secret");
    ("services", VList ["docker"]);
    ("custom-commands", VList ["echo done"]);
    ("parallel downloads", VInt 4)
  ].

Definition fully_configured : State :=
  {| arguments := full_arguments; storage := ∅; trace := [] |}.

(** The same configuration, for a silent installation. *)
Definition silently_configured : State :=
  {| arguments := <["silent" := VBool true]> full_arguments; storage := ∅; trace := [] |}.

(** The same configuration with another number of parallel downloads, in
    a process whose [storage] names a mount point. *)
Definition configured_elsewhere : State :=
  {| arguments := <["parallel downloads" := VInt 8]> full_arguments;
     storage := {["MOUNT_POINT" := VPath "/target"]};
     trace := [] |}.

(** The library on a machine where accessibility tools are in use. *)
Definition with_screen_reader : World := {|
  reply := λ h c,
    match c with
    | accessibility_tools_in_use => Returned (VBool true)
    | _ => reply compliant h c
    end;
  store_effect := store_effect compliant
|}.

(** The library with a menu that stores nothing in the configuration bag. *)
Definition with_idle_menu : World := {|
  reply := reply compliant;
  store_effect := λ _ _ a, a
|}.

(** * Proofs *)

(** ** Rules for triples *)

Section Logic.

Variable w : World.
Variable a0 : gmap string Value.

Lemma triple_run {A} T (m : M A) Q E st st' r :
  triple a0 T m Q E → arguments st = a0 → T (trace st) → m st = (st', r) →
  arguments st' = a0 ∧
  match r with Ok a => Q a (trace st') | Exc e => E e (trace st') end.
Proof. intros H Ha HT Hm. specialize (H st Ha HT). by rewrite Hm in H. Qed.

Lemma triple_ret {A} T (a : A) (Q : A → list Event → Prop) E :
  (∀ tr, T tr → Q a tr) → triple a0 T (mret a) Q E.
Proof. intros H st Ha HT. split; [done | by apply H]. Qed.

Lemma triple_bind {A B} T (m : M A) (f : A → M B) R Q E :
  triple a0 T m R E → (∀ a, triple a0 (R a) (f a) Q E) → triple a0 T (m ≫= f) Q E.
Proof.
  intros Hm Hf st Ha HT. destruct (Hm st Ha HT) as [Ha' H].
  unfold mbind, M_bind, bind. destruct (m st) as [st' [a|e]]; simpl in *.
  - by apply Hf.
  - done.
Qed.

Lemma triple_weaken {A} (T T' : list Event → Prop) (m : M A)
    (Q Q' : A → list Event → Prop) (E E' : exn → list Event → Prop) :
  triple a0 T' m Q' E' →
  (∀ tr, T tr → T' tr) → (∀ a tr, Q' a tr → Q a tr) → (∀ e tr, E' e tr → E e tr) →
  triple a0 T m Q E.
Proof.
  intros H HT HQ HE st Ha Ht. destruct (H st Ha (HT _ Ht)) as [Ha' H'].
  split; [done|]. destruct (m st).2; auto.
Qed.

Lemma triple_get_bind {B} T k d (f : Value → M B) Q E :
  triple a0 T (f (default d (a0 !! k))) Q E → triple a0 T (args_get k d ≫= f) Q E.
Proof.
  intros H st Ha HT. unfold mbind, M_bind, bind, args_get.
  rewrite Ha. by apply H.
Qed.

Lemma triple_index_bind {B} T k (f : Value → M B) Q E :
  (∀ v, a0 !! k = Some v → triple a0 T (f v) Q E) →
  (a0 !! k = None → ∀ tr, T tr → E (KeyError k) tr) →
  triple a0 T (args_index k ≫= f) Q E.
Proof.
  intros Hs Hn st Ha HT. unfold mbind, M_bind, bind, args_index.
  rewrite Ha. destruct (a0 !! k) as [v|] eqn:Hk; simpl.
  - by apply Hs.
  - split; [done | by apply Hn].
Qed.

Lemma triple_storage_get_bind {B} T k d (f : Value → M B) Q E :
  (∀ v, triple a0 T (f v) Q E) → triple a0 T (storage_get k d ≫= f) Q E.
Proof. intros H st Ha HT. unfold mbind, M_bind, bind, storage_get. by apply H. Qed.

Lemma triple_lift_bind {A B} T (r : Result A) (f : A → M B) Q E :
  (∀ a, r = Ok a → triple a0 T (f a) Q E) →
  (∀ e, r = Exc e → ∀ tr, T tr → E e tr) →
  triple a0 T (lift r ≫= f) Q E.
Proof.
  intros Hs Hn st Ha HT. unfold mbind, M_bind, bind, lift.
  destruct r as [a|e]; simpl.
  - by apply Hs.
  - split; [done | by apply Hn].
Qed.

Lemma triple_call T c (Q : Value → list Event → Prop) E :
  (∀ tr v, T tr → reply w tr c = Returned v → Q v (tr ++ [(c, Returned v)])) →
  (∀ tr e, T tr → reply w tr c = Raised e → E e (tr ++ [(c, Raised e)])) →
  triple a0 T (call w c) Q E.
Proof.
  intros Hv He st Ha HT. unfold call.
  destruct (reply w (trace st) c) as [v|e] eqn:Hr; simpl; split; auto.
Qed.

Lemma triple_when T b m (Q : unit → list Event → Prop) E :
  (b = true → triple a0 T m (λ _, Q tt) E) →
  (b = false → ∀ tr, T tr → Q tt tr) →
  triple a0 T (when b m) Q E.
Proof.
  intros Ht Hf. unfold when. destruct b.
  - eapply triple_bind; [by apply Ht|]. intros ?. by apply triple_ret.
  - apply triple_ret. by apply Hf.
Qed.

Lemma triple_for_each {A} (I : list A → list Event → Prop) (body : A → M unit) E l :
  (∀ seen x, triple a0 (I seen) (body x) (λ _, I (seen ++ [x])) E) →
  ∀ seen, triple a0 (I seen) (for_each l body) (λ _, I (seen ++ l)) E.
Proof.
  intros Hbody. induction l as [|x l IH]; intros seen; simpl.
  - apply triple_ret. intros tr. by rewrite app_nil_r.
  - eapply triple_bind; [apply Hbody|]. intros ?.
    replace (seen ++ x :: l) with ((seen ++ [x]) ++ l) by by rewrite <- app_assoc.
    apply IH.
Qed.

Lemma triple_try T m (Q : unit → list Event → Prop) E E' :
  triple a0 T m (λ _, Q tt) E' →
  (∀ e tr, E' e tr → if is_Exception e then Q tt tr else E e tr) →
  triple a0 T (try_except_Exception_pass m) Q E.
Proof.
  intros Hm Hh st Ha HT. destruct (Hm st Ha HT) as [Ha' H].
  unfold try_except_Exception_pass. destruct (m st) as [st' [v|e]]; simpl in *.
  - done.
  - specialize (Hh e _ H). destruct (is_Exception e); simpl; done.
Qed.

Lemma triple_guarded T body (Qb : unit → list Event → Prop) Eb
    (Q : unit → list Event → Prop) E :
  triple a0 T body Qb Eb →
  (∀ tr, Qb tt tr →
     match reply w tr (Installer_exit None) with
     | Returned v => Q tt (tr ++ [(Installer_exit None, Returned v)])
     | Raised e => E e (tr ++ [(Installer_exit None, Raised e)])
     end) →
  (∀ tr e, Eb e tr →
     match reply w tr (Installer_exit (Some e)) with
     | Returned v =>
         if truthy v then Q tt (tr ++ [(Installer_exit (Some e), Returned v)])
         else E e (tr ++ [(Installer_exit (Some e), Returned v)])
     | Raised e' => E e' (tr ++ [(Installer_exit (Some e), Raised e')])
     end) →
  triple a0 T (guarded_by_exit w body) Q E.
Proof.
  intros Hb Hok Hexc st Ha HT. destruct (Hb st Ha HT) as [Ha' H].
  unfold guarded_by_exit. destruct (body st) as [st' [[]|e]]; simpl in *.
  - specialize (Hok _ H). unfold mbind, M_bind, bind, call.
    destruct (reply w (trace st') (Installer_exit None)); simpl; done.
  - specialize (Hexc _ _ H). unfold call.
    destruct (reply w (trace st') (Installer_exit (Some e))) as [v|e']; simpl.
    + destruct (truthy v); simpl; done.
    + done.
Qed.

Lemma triple_with T T1 T2 new body (Q : unit → list Event → Prop) E :
  triple a0 T (call w new) (λ _, T1) E →
  triple a0 T1 (call w Installer_enter) (λ _, T2) E →
  triple a0 T2 (guarded_by_exit w body) Q E →
  triple a0 T (with_Installer w new body) Q E.
Proof.
  intros Hnew Henter Hbody. unfold with_Installer.
  eapply triple_bind; [exact Hnew|]. intros ?.
  eapply triple_bind; [exact Henter|]. intros ?. exact Hbody.
Qed.

End Logic.

(** One step through a program whose trace predicate stays the same from
    statement to statement.  [side] closes the conditions on single calls
    and on the exceptions the script's own expressions raise; [stop m]
    fails on the statements [m] at which the walk is to halt. *)
Ltac walk_step stop side :=
  lazymatch goal with
  | |- triple _ _ (mret _) _ _ =>
      apply triple_ret; side
  | |- triple _ ?T (?m ≫= _) _ _ =>
      stop m;
      lazymatch m with
      | args_get _ _ =>
          apply triple_get_bind
      | storage_get _ _ =>
          apply triple_storage_get_bind; intros ?
      | args_index _ =>
          apply triple_index_bind; [intros ? ? | intros ?; side]
      | lift _ =>
          apply triple_lift_bind; [intros ? ? | intros ? ?; side]
      | call _ _ =>
          apply (triple_bind _ T _ _ (λ _, T)); [apply triple_call; side | intros ?]
      | when _ (call _ _) =>
          apply (triple_bind _ T _ _ (λ _, T));
          [apply triple_when; [intros ?; apply triple_call; side | intros ?; side]
          | intros ?]
      | (if _ then _ else _) =>
          apply (triple_bind _ T _ _ (λ _, T)); [ | intros ?]
      | for_each _ _ =>
          apply (triple_bind _ T _ _ (λ _, T));
          [apply (triple_for_each _ (λ _, T) _ _ _) with (seen := []); intros ? ?
          | intros ?]
      end
  | |- triple _ ?T ?m _ _ =>
      stop m;
      lazymatch m with
      | when _ (call _ _) =>
          apply triple_when; [intros ?; apply triple_call; side | intros ?; side]
      | (if ?b then _ else _) =>
          destruct b eqn:?
      | try_except_Exception_pass (call _ _) =>
          apply (triple_try _ T _ _ _ (λ _, T));
          [apply triple_call; side
          | let e := fresh "e" in intros e ? ?; destruct (is_Exception e) eqn:?; side]
      end
  end.

Ltac nowhere m := idtac.

Ltac walk_until stop side := repeat walk_step stop side.

Ltac walk side := walk_until nowhere side.

(** ** Predicates on traces *)

Lemma snoc_split {A} (l1 : list A) a l2 b l3 :
  l1 ++ [a] = l2 ++ b :: l3 →
  (l3 = [] ∧ l1 = l2 ∧ a = b) ∨ (∃ l3', l3 = l3' ++ [a] ∧ l1 = l2 ++ b :: l3').
Proof.
  destruct l3 as [|x l3 _] using rev_ind; intros H.
  - left. apply app_inj_tail in H as [-> ->]. done.
  - right. exists l3.
    change (l2 ++ b :: l3 ++ [x]) with (l2 ++ (b :: l3) ++ [x]) in H.
    rewrite app_assoc in H. apply app_inj_tail in H as [-> ->]. done.
Qed.

Lemma since_refl t0 (I : list Event → Prop) : I [] → since t0 I t0.
Proof. intros H. exists []. by rewrite app_nil_r. Qed.

Lemma since_snoc t0 (I I' : list Event → Prop) tr ev :
  since t0 I tr → (∀ evs, I evs → I' (evs ++ [ev])) → since t0 I' (tr ++ [ev]).
Proof.
  intros (evs & -> & HI) H. exists (evs ++ [ev]).
  split; [by rewrite app_assoc | by apply H].
Qed.

Lemma since_mono t0 (I I' : list Event → Prop) tr :
  since t0 I tr → (∀ evs, I evs → I' evs) → since t0 I' tr.
Proof. intros (evs & -> & HI) H. exists evs. auto. Qed.

Lemma ends_with_nil evs : ends_with [] evs.
Proof. exists (evs.*1). by rewrite app_nil_r. Qed.

Lemma ends_with_snoc pat evs c r :
  ends_with pat evs → ends_with (pat ++ [c]) (evs ++ [(c, r)]).
Proof.
  intros [pre H]. exists pre. by rewrite fmap_app, H, <- app_assoc.
Qed.

Lemma ends_with_issued pat evs : ends_with pat evs → issued_in_a_row pat evs.
Proof. intros [pre H]. exists pre, []. by rewrite app_nil_r. Qed.

Lemma issued_in_a_row_snoc pat evs ev :
  issued_in_a_row pat evs → issued_in_a_row pat (evs ++ [ev]).
Proof.
  intros (pre & post & H). exists pre, (post ++ [ev.1]).
  by rewrite fmap_app, H, <- !app_assoc.
Qed.

Lemma preceded_by_nil marker pat : preceded_by marker pat [].
Proof. intros pre c x post Heq. by destruct pre. Qed.

Lemma preceded_by_snoc_other marker pat evs c r :
  ¬ marker c → preceded_by marker pat evs → preceded_by marker pat (evs ++ [(c, r)]).
Proof.
  intros Hc H pre c' x post Heq Hmk.
  apply snoc_split in Heq as [(-> & -> & [= -> ->]) | (l & -> & ->)]; [done|].
  by eapply H.
Qed.

Lemma preceded_by_snoc_marker marker pat evs c r :
  ends_with pat evs → preceded_by marker pat evs →
  preceded_by marker pat (evs ++ [(c, r)]).
Proof.
  intros Hpat H pre c' x post Heq Hmk.
  apply snoc_split in Heq as [(-> & -> & _) | (l & -> & ->)]; [done|].
  by eapply H.
Qed.

Lemma observe_app {X} (f : Call → option X) tr tr' :
  observe f (tr ++ tr') = observe f tr ++ observe f tr'.
Proof. apply omap_app. Qed.

Lemma observe_snoc_None {X} (f : Call → option X) tr c r :
  f c = None → observe f (tr ++ [(c, r)]) = observe f tr.
Proof. intros H. rewrite observe_app. simpl. rewrite H. apply app_nil_r. Qed.

Lemma observe_snoc_Some {X} (f : Call → option X) tr c r x :
  f c = Some x → observe f (tr ++ [(c, r)]) = observe f tr ++ [x].
Proof. intros H. rewrite observe_app. simpl. by rewrite H. Qed.

(** Side conditions of a walk under [since t0 I] where [I] survives any
    further event ([stable] proves that). *)
Ltac since_side stable :=
  try done; try assumption;
  intros; cbv beta in *;
  try (eapply since_snoc; [eassumption | intros; stable]); auto.

(** ** What the installation phase does to the configuration bag *)

Section Frame.

Variable w : World.

Lemma installation_steps_frame a0 dc lc de t m :
  triple a0 (λ _, True) (installation_steps w dc lc de t m)
    (λ _ _, True) (λ _ _, True).
Proof. unfold installation_steps. walk ltac:(done). Qed.

Lemma perform_installation_frame a0 mp :
  triple a0 (λ _, True) (perform_installation w mp) (λ _ _, True) (λ _ _, True).
Proof.
  unfold perform_installation. walk ltac:(done).
  apply (triple_bind _ _ _ _ (λ _ _, True)); [|intros ?; walk ltac:(done)].
  apply (triple_with w _ _ (λ _, True) (λ _, True)); try by apply triple_call.
  eapply triple_guarded; [apply installation_steps_frame | |].
  - intros tr _. by destruct (reply w tr _).
  - intros tr e _. destruct (reply w tr _) as [x|x]; [by destruct (truthy x)|done].
Qed.

Lemma prepare_and_install_frame a0 :
  triple a0 (λ _, True) (prepare_and_install w) (λ _ _, True) (λ _ _, True).
Proof.
  unfold prepare_and_install. walk ltac:(done). apply perform_installation_frame.
Qed.

Lemma script_split st :
  script w st =
    match ask_user_questions w st with
    | (st1, Ok _) => prepare_and_install w st1
    | (st1, Exc e) => (st1, Exc e)
    end.
Proof. reflexivity. Qed.

(** C7.  [perform_installation] leaves [archinstall.arguments] exactly as it
    found it, whatever the library answers and however the run ends; hence
    the bag the script ends with is the one [ask_user_questions] left. *)
Theorem installation_only_reads_arguments :
  (∀ mp st, arguments (perform_installation w mp st).1 = arguments st) ∧
  (∀ st, arguments (script w st).1 = arguments (ask_user_questions w st).1).
Proof.
  split.
  - intros mp st.
    by destruct (perform_installation_frame (arguments st) mp st eq_refl I).
  - intros st. rewrite script_split.
    destruct (ask_user_questions w st) as [st1 [[]|e]]; [|done]. simpl.
    by destruct (prepare_and_install_frame (arguments st1) st1 eq_refl I).
Qed.

End Frame.

(** ** The library's context manager *)

Lemma triple_guarded_completed w a0 T body (Qb Q : unit → list Event → Prop) :
  exit_hands_back w →
  triple a0 T body Qb (λ _ _, True) →
  (∀ tr r, Qb tt tr → Q tt (tr ++ [(Installer_exit None, r)])) →
  triple a0 T (guarded_by_exit w body) Q (λ _ _, True).
Proof.
  intros Hexit Hbody HQ. eapply triple_guarded; [exact Hbody | |].
  - intros tr Hb. destruct (reply w tr _); [by apply HQ | done].
  - intros tr e _. specialize (Hexit tr e).
    destruct (reply w tr _); [by rewrite Hexit | done].
Qed.

(** ** What the trace shows of commands and packages *)

Lemma all_users_fmap {A} (f : A → Value) (l : list A) :
  (∀ x u, f x ≠ VUser u) → all_users (f <$> l) → l = [].
Proof.
  intros Hf H. destruct l as [|x l]; [done|].
  inversion H as [|? ? [u Hu] _]. by destruct (Hf x u).
Qed.

Lemma item_names_users l : item_names (VUser <$> l) = username <$> l.
Proof. induction l as [|u l IH]; [done|]. simpl. by f_equal. Qed.

Lemma iter_usernames v items :
  py_iter v = Ok items → all_users items → item_names items = usernames v.
Proof.
  destruct v; simpl; try discriminate; intros [= <-] H;
    try apply item_names_users;
    (apply all_users_fmap in H; [by rewrite H | done]).
Qed.

Lemma commands_run_snoc tr v r :
  commands_run (tr ++ [(run_custom_user_commands v, r)]) = commands_run tr ++ [v].
Proof. by apply observe_snoc_Some. Qed.

Lemma commands_run_snoc_other tr c r :
  match c with run_custom_user_commands _ => False | _ => True end →
  commands_run (tr ++ [(c, r)]) = commands_run tr.
Proof. intros H. apply observe_snoc_None. by destruct c. Qed.

Lemma package_lists_snoc tr l r :
  package_lists (tr ++ [(add_additional_packages (VList l), r)]) = package_lists tr ++ [l].
Proof. by apply observe_snoc_Some. Qed.

Lemma package_lists_snoc_other tr c r :
  match c with add_additional_packages (VList _) => False | _ => True end →
  package_lists (tr ++ [(c, r)]) = package_lists tr.
Proof. intros H. apply observe_snoc_None. destruct c; try done. by destruct packages. Qed.

Ltac commands_side :=
  try done; intros; cbv beta in *;
  try (rewrite commands_run_snoc_other by done); auto.

Ltac packages_side :=
  try done; intros; cbv beta in *;
  try (rewrite package_lists_snoc_other by done); auto.

(** ** Literal arguments of the installation phase *)

Section Literals.

Variable w : World.
Hypothesis Hexit : exit_hands_back w.

Abbreviation install_base := (add_additional_packages (VList base_packages)).
Abbreviation enable_base := (enable_service (VList base_services)).
Abbreviation add_blackarch := (add_custom_mirrors (VMirrors [blackarch_mirror])).

Ltac not_the_marker :=
  apply preceded_by_snoc_other;
  [let Hm := fresh in intros Hm; exact Hm | assumption].

Ltac precedence_side :=
  try done; try assumption; intros; cbv beta in *;
  first
    [ assumption
    | eapply since_snoc;
      [eassumption
      | first
          [ intros; not_the_marker
          | intros ? [? ?];
            first [ split; [not_the_marker | by apply issued_in_a_row_snoc]
                  | not_the_marker ] ] ]
    | eapply since_mono; [eassumption | by intros ? [? ?]] ].

Lemma installation_steps_base a0 t0 dc lc de t m :
  triple a0
    (since t0 (preceded_by is_add_bootloader [install_base; enable_base]))
    (installation_steps w dc lc de t m)
    (λ _, since t0 (λ evs,
       preceded_by is_add_bootloader [install_base; enable_base] evs ∧
       issued_in_a_row [install_base; enable_base] evs))
    (λ _, since t0 (preceded_by is_add_bootloader [install_base; enable_base])).
Proof.
  unfold installation_steps.
  walk_until
    ltac:(fun m => lazymatch m with call _ install_base => fail | _ => idtac end)
    precedence_side.
  apply (triple_bind _ _ _ _ (λ _, since t0 (λ evs,
           preceded_by is_add_bootloader [install_base; enable_base] evs ∧
           ends_with [install_base] evs))).
  { apply triple_call; [|precedence_side].
    intros. eapply since_snoc; [eassumption|]. intros. split.
    - not_the_marker.
    - by apply (ends_with_snoc []), ends_with_nil. }
  intros ?.
  apply (triple_bind _ _ _ _ (λ _, since t0 (λ evs,
           preceded_by is_add_bootloader [install_base; enable_base] evs ∧
           ends_with [install_base; enable_base] evs))).
  { apply triple_call; [|precedence_side].
    intros. eapply since_snoc; [eassumption|]. intros ? [? ?]. split.
    - not_the_marker.
    - by apply (ends_with_snoc [install_base]). }
  intros ?.
  apply triple_index_bind; [intros bootloader ? | intros ?; precedence_side].
  apply (triple_bind _ _ _ _ (λ _, since t0 (λ evs,
           preceded_by is_add_bootloader [install_base; enable_base] evs ∧
           issued_in_a_row [install_base; enable_base] evs))).
  { apply triple_call.
    - intros. eapply since_snoc; [eassumption|]. intros ? [? ?]. split.
      + by apply preceded_by_snoc_marker.
      + by apply issued_in_a_row_snoc, ends_with_issued.
    - intros. eapply since_snoc; [eassumption|]. intros ? [? ?].
      by apply preceded_by_snoc_marker. }
  intros ?. walk precedence_side.
Qed.

Lemma installation_steps_blackarch a0 t0 dc lc de t m :
  triple a0
    (since t0 (preceded_by is_minimal_installation [add_blackarch]))
    (installation_steps w dc lc de t m)
    (λ _, since t0 (λ evs,
       preceded_by is_minimal_installation [add_blackarch] evs ∧
       issued_in_a_row
         [add_blackarch;
          minimal_installation t m (default (VStr "archlinux") (a0 !! "hostname")) lc]
         evs))
    (λ _, since t0 (preceded_by is_minimal_installation [add_blackarch])).
Proof.
  unfold installation_steps.
  walk_until
    ltac:(fun m => lazymatch m with call _ add_blackarch => fail | _ => idtac end)
    precedence_side.
  apply (triple_bind _ _ _ _ (λ _, since t0 (λ evs,
           preceded_by is_minimal_installation [add_blackarch] evs ∧
           ends_with [add_blackarch] evs))).
  { apply triple_call; [|precedence_side].
    intros. eapply since_snoc; [eassumption|]. intros. split.
    - not_the_marker.
    - by apply (ends_with_snoc []), ends_with_nil. }
  intros ?. apply triple_get_bind.
  apply (triple_bind _ _ _ _ (λ _, since t0 (λ evs,
       preceded_by is_minimal_installation [add_blackarch] evs ∧
       issued_in_a_row
         [add_blackarch;
          minimal_installation t m (default (VStr "archlinux") (a0 !! "hostname")) lc]
         evs))).
  { apply triple_call.
    - intros. eapply since_snoc; [eassumption|]. intros ? [? ?]. split.
      + by apply preceded_by_snoc_marker.
      + by apply ends_with_issued, (ends_with_snoc [add_blackarch]).
    - intros. eapply since_snoc; [eassumption|]. intros ? [? ?].
      by apply preceded_by_snoc_marker. }
  intros ?. walk precedence_side.
Qed.

(** The same for a property of all runs [T0] that a completed run
    strengthens to [TQ]. *)
Lemma perform_installation_lift a0 mp (T0 TQ : list Event → Prop) :
  (∀ tr c r, housekeeping c → T0 tr → T0 (tr ++ [(c, r)])) →
  (∀ tr c r, housekeeping c → TQ tr → TQ (tr ++ [(c, r)])) →
  (∀ tr, TQ tr → T0 tr) →
  (∀ dc lc de t m,
     triple a0 T0 (installation_steps w dc lc de t m) (λ _, TQ) (λ _, T0)) →
  triple a0 T0 (perform_installation w mp) (λ _, TQ) (λ _, T0).
Proof.
  intros Hpre Hpost Hweak Hbody. unfold perform_installation.
  walk ltac:(try done; intros; by apply Hpre).
  apply (triple_bind _ _ _ _ (λ _, TQ)).
  - apply (triple_with w _ _ T0 T0);
      try (apply triple_call; intros; by apply Hpre).
    eapply triple_guarded; [apply Hbody | |].
    + intros tr Htr. destruct (reply w tr _); [by apply Hpost|].
      by apply Hpre, Hweak.
    + intros tr e Htr. specialize (Hexit tr e).
      destruct (reply w tr _); [rewrite Hexit|]; by apply Hpre.
  - intros ?.
    walk ltac:(try done; intros; first [by apply Hpost | by apply Hpre, Hweak]).
Qed.

Lemma run_since a0 mp st st' r (I0 IQ : list Event → Prop) :
  triple a0 (since (trace st) I0) (perform_installation w mp)
    (λ _, since (trace st) IQ) (λ _, since (trace st) I0) →
  (∀ evs, IQ evs → I0 evs) →
  arguments st = a0 → I0 [] →
  perform_installation w mp st = (st', r) →
  ∃ evs, trace st' = trace st ++ evs ∧ I0 evs ∧ (r = Ok tt → IQ evs).
Proof.
  intros H Hweak Ha H0 Hrun.
  destruct (triple_run _ _ _ _ _ _ _ _ H Ha (since_refl _ _ H0) Hrun) as [_ Hpost].
  destruct r as [[]|e]; destruct Hpost as (evs & Htr & Hevs); exists evs.
  - split; [done|]. split; [by apply Hweak | done].
  - split; [done|]. split; [done | discriminate].
Qed.

(** How a property of the [with] body becomes one of [perform_installation]. *)
Lemma perform_installation_completed a0 mp (T0 T1 : list Event → Prop) :
  (∀ tr c r, housekeeping c → T0 tr → T0 (tr ++ [(c, r)])) →
  (∀ tr c r, housekeeping c → T1 tr → T1 (tr ++ [(c, r)])) →
  (∀ dc lc de t m,
     triple a0 T0 (installation_steps w dc lc de t m) (λ _, T1) (λ _ _, True)) →
  triple a0 T0 (perform_installation w mp) (λ _, T1) (λ _ _, True).
Proof.
  intros Hpre Hpost Hbody. unfold perform_installation.
  walk ltac:(try done; intros; by apply Hpre).
  apply (triple_bind _ _ _ _ (λ _, T1));
    [|intros ?; walk ltac:(try done; intros; by apply Hpost)].
  apply (triple_with w _ _ T0 T0);
    try (apply triple_call; [intros; by apply Hpre | done]).
  apply (triple_guarded_completed w _ _ _ (λ _, T1)); [done | apply Hbody |].
  intros. by apply Hpost.
Qed.

Lemma completed_run a0 mp st st' (T0 T1 : list Event → Prop) :
  triple a0 T0 (perform_installation w mp) (λ _, T1) (λ _ _, True) →
  arguments st = a0 → T0 (trace st) →
  perform_installation w mp st = (st', Ok tt) →
  T1 (trace st').
Proof.
  intros H Ha HT Hrun.
  by destruct (triple_run _ _ _ _ _ _ _ _ H Ha HT Hrun) as [_ Hpost].
Qed.

(** C2.  In every run of [perform_installation], whatever the
    configuration, [add_bootloader] is only ever called right after
    [add_additional_packages] with the literal list of 27 packages and
    [enable_service] with the literal list of 5 services, in this order; and
    every run that completes has made these two calls one right after the
    other. *)
Theorem base_packages_then_base_services mp st st' r :
  perform_installation w mp st = (st', r) →
  ∃ evs, trace st' = trace st ++ evs ∧
    preceded_by is_add_bootloader
      [add_additional_packages (VList [
         "neovim"; "git"; "curl"; "wget"; "nmap"; "gnu-netcat"; "base-devel";
         "openssh"; "python"; "neofetch"; "rust"; "nodejs"; "yarn"; "npm";
         "go"; "ufw"; "python-pip"; "blackarch-keyring"; "podman"; "nginx";
         "mariadb"; "postgresql"; "cockpit"; "cockpit-machines";
         "cockpit-podman"; "cockpit-pcp"; "cockpit-storaged"]);
       enable_service (VList [
         "nginx"; "mariadb"; "postgresql"; "cockpit"; "sshd"])]
      evs ∧
    (r = Ok tt →
     issued_in_a_row
       [add_additional_packages (VList [
          "neovim"; "git"; "curl"; "wget"; "nmap"; "gnu-netcat"; "base-devel";
          "openssh"; "python"; "neofetch"; "rust"; "nodejs"; "yarn"; "npm";
          "go"; "ufw"; "python-pip"; "blackarch-keyring"; "podman"; "nginx";
          "mariadb"; "postgresql"; "cockpit"; "cockpit-machines";
          "cockpit-podman"; "cockpit-pcp"; "cockpit-storaged"]);
        enable_service (VList [
          "nginx"; "mariadb"; "postgresql"; "cockpit"; "sshd"])]
       evs).
Proof.
  intros Hrun.
  cut (∃ evs, trace st' = trace st ++ evs ∧
         preceded_by is_add_bootloader [install_base; enable_base] evs ∧
         (r = Ok tt →
          preceded_by is_add_bootloader [install_base; enable_base] evs ∧
          issued_in_a_row [install_base; enable_base] evs)).
  { intros (evs & Htr & Hp & Hok). exists evs.
    split; [done|]. split; [done|]. intros Hr. by destruct (Hok Hr). }
  apply (run_since (arguments st) mp st st' r
           (preceded_by is_add_bootloader [install_base; enable_base])
           (λ evs, preceded_by is_add_bootloader [install_base; enable_base] evs ∧
                   issued_in_a_row [install_base; enable_base] evs));
    [|by intros ? [? ?]|done|apply preceded_by_nil|exact Hrun].
  apply perform_installation_lift.
  - intros tr c x Hc Htr. eapply since_snoc; [exact Htr|].
    intros. apply preceded_by_snoc_other; [destruct c; simpl in *; tauto | done].
  - intros tr c x Hc Htr. eapply since_snoc; [exact Htr|].
    intros ? [? ?]. split; [|by apply issued_in_a_row_snoc].
    apply preceded_by_snoc_other; [destruct c; simpl in *; tauto | done].
  - intros tr Htr. eapply since_mono; [exact Htr|]. by intros ? [? ?].
  - intros. apply installation_steps_base.
Qed.

(** C8.  In every run of [perform_installation], whatever mirror regions
    or custom mirrors are configured, [minimal_installation] is only ever
    called right after [mirrors.add_custom_mirrors] was given exactly the
    custom mirror 'Blackarch' (signature check Required, sign option
    TrustAll); and every run that completes has made these two calls. *)
Theorem blackarch_mirror_always_added mp st st' r :
  perform_installation w mp st = (st', r) →
  ∃ evs, trace st' = trace st ++ evs ∧
    preceded_by is_minimal_installation
      [add_custom_mirrors (VMirrors [
         {| mirror_name := "Blackarch";
            mirror_url := "https://www.blackarch.org/blackarch/$repo/os/$arch";
            sign_check := Required;
            sign_option := TrustAll |}])]
      evs ∧
    (r = Ok tt →
     ∃ testing multilib hostname locale_config,
       issued_in_a_row
         [add_custom_mirrors (VMirrors [
            {| mirror_name := "Blackarch";
               mirror_url := "https://www.blackarch.org/blackarch/$repo/os/$arch";
               sign_check := Required;
               sign_option := TrustAll |}]);
          minimal_installation testing multilib hostname locale_config]
         evs).
Proof.
  intros Hrun.
  cut (∃ evs, trace st' = trace st ++ evs ∧
         preceded_by is_minimal_installation [add_blackarch] evs ∧
         (r = Ok tt →
          preceded_by is_minimal_installation [add_blackarch] evs ∧
          ∃ t m h lc,
            issued_in_a_row [add_blackarch; minimal_installation t m h lc] evs)).
  { intros (evs & Htr & Hp & Hok). exists evs.
    split; [done|]. split; [done|]. intros Hr. by destruct (Hok Hr). }
  apply (run_since (arguments st) mp st st' r
           (preceded_by is_minimal_installation [add_blackarch])
           (λ evs, preceded_by is_minimal_installation [add_blackarch] evs ∧
                   ∃ t m h lc,
                     issued_in_a_row [add_blackarch; minimal_installation t m h lc] evs));
    [|by intros ? [? ?]|done|apply preceded_by_nil|exact Hrun].
  apply perform_installation_lift.
  - intros tr c x Hc Htr. eapply since_snoc; [exact Htr|].
    intros. apply preceded_by_snoc_other; [destruct c; simpl in *; tauto | done].
  - intros tr c x Hc Htr. eapply since_snoc; [exact Htr|].
    intros ? [? (t & m & h & lc & ?)]. split.
    + apply preceded_by_snoc_other; [destruct c; simpl in *; tauto | done].
    + exists t, m, h, lc. by apply issued_in_a_row_snoc.
  - intros tr Htr. eapply since_mono; [exact Htr|]. by intros ? [? ?].
  - intros. eapply triple_weaken; [apply installation_steps_blackarch|..]; try done.
    intros ? tr Htr. eapply since_mono; [exact Htr|]. intros evs [? ?].
    split; [done|]. simpl. eauto.
Qed.

End Literals.

(** ** The kernel the installer is built with *)

Section Kernel.

Variable w : World.

Lemma only_hardened_snoc evs c r :
  only_hardened evs → builds_hardened c → only_hardened (evs ++ [(c, r)]).
Proof. intros H Hc. apply Forall_app. split; [done | by repeat constructor]. Qed.

Lemma hardened_built_snoc mp evs c r :
  hardened_built mp evs → builds_hardened c → hardened_built mp (evs ++ [(c, r)]).
Proof.
  intros [H (dc & de & Hin)] Hc. split; [by apply only_hardened_snoc|].
  exists dc, de. rewrite fmap_app. apply elem_of_app. by left.
Qed.

Lemma installation_steps_kernel a0 t0 mp dc lc de t m :
  triple a0 (since t0 (hardened_built mp)) (installation_steps w dc lc de t m)
    (λ _, since t0 (hardened_built mp)) (λ _, since t0 (hardened_built mp)).
Proof.
  unfold installation_steps.
  walk ltac:(since_side ltac:(by apply hardened_built_snoc)).
Qed.

Lemma perform_installation_kernel a0 t0 mp :
  a0 !! "kernels" = None →
  triple a0 (since t0 only_hardened) (perform_installation w mp)
    (λ _, since t0 (hardened_built mp)) (λ _, since t0 only_hardened).
Proof.
  intros Hk. unfold perform_installation.
  walk ltac:(since_side ltac:(by apply only_hardened_snoc)).
  rewrite Hk.
  apply (triple_weaken _ _ (since t0 only_hardened) _
           _ (λ _, since t0 (hardened_built mp))
           _ (λ e tr, since t0 only_hardened tr ∨ since t0 (hardened_built mp) tr)).
  2: done. 2: done.
  2: { intros e tr [Htr|Htr]; [done|]. eapply since_mono; [exact Htr|].
       by intros evs [? _]. }
  apply (triple_bind _ _ _ _ (λ _, since t0 (hardened_built mp))).
  - apply (triple_with w _ _ (since t0 (hardened_built mp))
             (since t0 (hardened_built mp))).
    + apply triple_call.
      * intros tr x Htr _. eapply since_snoc; [exact Htr|]. intros evs Hevs.
        split; [by apply only_hardened_snoc|]. eexists _, _.
        rewrite fmap_app. apply elem_of_app. right. simpl. apply list_elem_of_here.
      * intros tr e Htr _. left. eapply since_snoc; [exact Htr|].
        intros evs Hevs. by apply only_hardened_snoc.
    + apply triple_call.
      * since_side ltac:(by apply hardened_built_snoc).
      * intros. right. since_side ltac:(by apply hardened_built_snoc).
    + eapply triple_guarded; [apply installation_steps_kernel | |].
      * intros tr Htr. destruct (reply w tr _); [|right];
          since_side ltac:(by apply hardened_built_snoc).
      * intros tr e Htr. destruct (reply w tr _) as [x|x];
          [destruct (truthy x); [|right] | right];
          since_side ltac:(by apply hardened_built_snoc).
  - intros ?.
    apply (triple_bind _ _ _ _ (λ _, since t0 (hardened_built mp))).
    { apply triple_call; [|intros; right];
        since_side ltac:(by apply hardened_built_snoc). }
    intros ?.
    apply (triple_bind _ _ _ _ (λ _, since t0 (hardened_built mp))).
    { apply triple_call; [|intros; right];
        since_side ltac:(by apply hardened_built_snoc). }
    intros ?. by apply triple_ret.
Qed.

(** C10.  With no 'kernels' entry in the configuration, every [Installer]
    the run constructs is given the kernel list ['linux-hardened'] (not
    'linux'), and a run that completes has constructed one. *)
Theorem default_kernel_is_linux_hardened mp st st' r :
  arguments st !! "kernels" = None →
  perform_installation w mp st = (st', r) →
  ∃ evs, trace st' = trace st ++ evs ∧
    (∀ m dc de kernels x,
       (Installer_new m dc de kernels, x) ∈ evs → kernels = VList ["linux-hardened"]) ∧
    (r = Ok tt →
       ∃ dc de, Installer_new mp dc de (VList ["linux-hardened"]) ∈ evs.*1).
Proof.
  intros Hk Hrun.
  destruct (triple_run _ _ _ _ _ _ _ _
              (perform_installation_kernel (arguments st) (trace st) mp Hk)
              eq_refl (since_refl _ only_hardened (Forall_nil_2 _)) Hrun)
    as [_ Hpost].
  assert (∃ evs, trace st' = trace st ++ evs ∧ only_hardened evs ∧
            (r = Ok tt → hardened_built mp evs)) as (evs & Htr & Hall & Hok).
  { destruct r as [[]|e]; destruct Hpost as (evs & ? & H); exists evs.
    - destruct H. done.
    - split; [done|]. split; [done|]. discriminate. }
  exists evs. split; [done|]. split.
  - intros m dc de kernels x Hin.
    unfold only_hardened in Hall. rewrite Forall_forall in Hall.
    apply (Hall _ Hin).
  - intros Hr. by destruct (Hok Hr).
Qed.

End Kernel.

(** ** Post-install commands and user packages *)

Section Commands.

Variable w : World.
Hypothesis Hexit : exit_hands_back w.

Ltac at_commands m :=
  lazymatch m with
  | context [run_custom_user_commands] => fail
  | _ => idtac
  end.

Lemma installation_steps_commands a0 K dc lc de t m :
  triple a0 (λ tr, commands_run tr = K) (installation_steps w dc lc de t m)
    (λ _ tr, commands_run tr = K ++ post_install_commands a0) (λ _ _, True).
Proof.
  unfold installation_steps.
  walk_until at_commands commands_side.
  apply (triple_bind _ _ _ _ (λ _ tr, commands_run tr = K ++ [VList install_paru])).
  { apply triple_call; [|done]. intros tr x <- _. apply commands_run_snoc. }
  intros ?.
  apply (triple_bind _ _ _ _
    (λ _ tr, commands_run tr = K ++ [VList install_paru; VList [mariadb_init]])).
  { apply triple_call; [|done]. intros tr x Htr _.
    by rewrite commands_run_snoc, Htr, <- app_assoc. }
  intros ?. apply triple_get_bind.
  apply triple_lift_bind; [intros items Hitems | done].
  apply (triple_bind _ _ _ _
    (λ _ tr, all_users items ∧
       commands_run tr = K ++ [VList install_paru; VList [mariadb_init]]
                           ++ usermod_commands (item_names items))).
  { eapply triple_weaken.
    - apply (triple_for_each _
        (λ seen tr, all_users seen ∧
           commands_run tr = K ++ [VList install_paru; VList [mariadb_init]]
                               ++ usermod_commands (item_names seen))
        _ (λ _ _, True) items) with (seen := []).
      intros seen x.
      apply triple_lift_bind; [intros name Hname | done].
      destruct x; try discriminate. injection Hname as <-.
      apply (triple_bind _ _ _ _ (λ _ tr, all_users (seen ++ [VUser u]) ∧
           commands_run tr = K ++ [VList install_paru; VList [mariadb_init]]
                               ++ usermod_commands (item_names (seen ++ [VUser u])))).
      + apply triple_call; [|done]. intros tr x [Hall Htr] _. split.
        * apply Forall_app. split; [done|]. repeat constructor. by exists u.
        * rewrite commands_run_snoc, Htr. unfold item_names, usermod_commands.
          rewrite omap_app, fmap_app. simpl. by rewrite <- !app_assoc.
      + intros ?. by apply triple_ret.
    - intros tr Htr. split; [constructor | by simpl].
    - done.
    - done. }
  intros ?.
  apply (triple_bind _ _ _ _
    (λ _ tr, commands_run tr =
       K ++ [VList install_paru; VList [mariadb_init]]
         ++ usermod_commands (usernames (default (VList []) (a0 !! "!users")))
         ++ [VList [postgres_init]])).
  { apply triple_call; [|done]. intros tr x [Hall Htr] _.
    rewrite commands_run_snoc, Htr, (iter_usernames _ _ Hitems Hall).
    by rewrite <- !app_assoc. }
  intros ?. apply triple_get_bind.
  apply (triple_bind _ _ _ _
    (λ _ tr, commands_run tr = K ++ post_install_commands a0)).
  { unfold post_install_commands.
    destruct (truthy (default VNone (a0 !! "custom-commands"))) eqn:Hcustom.
    - apply triple_index_bind; [intros custom Hc | done].
      apply (triple_bind _ _ _ _
        (λ _ tr, commands_run tr =
           K ++ [VList install_paru; VList [mariadb_init]]
             ++ usermod_commands (usernames (default (VList []) (a0 !! "!users")))
             ++ [VList [postgres_init]] ++ [default VNone (a0 !! "custom-commands")])).
      + apply triple_call; [|done]. intros tr x Htr _.
        rewrite commands_run_snoc, Htr, Hc. simpl.
        repeat (rewrite <- app_assoc; simpl). done.
      + intros ?. by apply triple_ret.
    - apply triple_ret. intros tr ->. by rewrite app_nil_r. }
  intros ?. walk commands_side.
Qed.

Ltac at_packages m :=
  lazymatch m with
  | call _ (add_additional_packages (VList _)) => fail
  | context [args_get "packages"] => fail
  | _ => idtac
  end.

Lemma forwarded_cases (l : list string) :
  (if decide (l ≠ [] ∧ head l ≠ Some "") then [base_packages; l]
   else [base_packages]) =
  match l with
  | [] => [base_packages]
  | x :: _ => if String.eqb x "" then [base_packages] else [base_packages; l]
  end.
Proof.
  destruct l as [|x l'].
  - apply decide_False. by intros [? _].
  - destruct (String.eqb_spec x "") as [->|Hx].
    + apply decide_False. by intros [_ ?].
    + apply decide_True. split; [done|]. simpl. congruence.
Qed.

Lemma installation_steps_packages a0 K l dc lc de t m :
  a0 !! "packages" = Some (VList l) →
  triple a0 (λ tr, package_lists tr = K) (installation_steps w dc lc de t m)
    (λ _ tr, package_lists tr =
       K ++ (if decide (l ≠ [] ∧ head l ≠ Some "") then [base_packages; l]
             else [base_packages]))
    (λ _ _, True).
Proof.
  intros Hp. rewrite forwarded_cases. unfold installation_steps.
  walk_until at_packages packages_side.
  apply (triple_bind _ _ _ _ (λ _ tr, package_lists tr = K ++ [base_packages])).
  { apply triple_call; [|done]. intros tr x <- _. apply package_lists_snoc. }
  intros ?. walk_until at_packages packages_side.
  apply triple_get_bind. rewrite Hp. simpl.
  apply (triple_bind _ _ _ _ (λ _ tr, package_lists tr =
       K ++ match l with
            | [] => [base_packages]
            | x :: _ => if String.eqb x "" then [base_packages] else [base_packages; l]
            end));
    [|intros ?; walk packages_side].
  destruct l as [|x l']; simpl.
  - by apply triple_ret.
  - apply triple_get_bind. rewrite Hp. simpl.
    apply triple_lift_bind; [|done]. intros first [= <-]. simpl.
    destruct (String.eqb x ""); simpl.
    + by apply triple_ret.
    + apply triple_get_bind. rewrite Hp. simpl.
      apply (triple_bind _ _ _ _ (λ _ tr, package_lists tr =
               K ++ [base_packages; x :: l'])).
      * apply triple_call; [|done]. intros tr y Htr _.
        by rewrite package_lists_snoc, Htr, <- app_assoc.
      * intros ?. by apply triple_ret.
Qed.

Lemma completed_commands mp st st' :
  perform_installation w mp st = (st', Ok tt) →
  commands_run (trace st') =
    commands_run (trace st) ++ post_install_commands (arguments st).
Proof.
  intros Hrun.
  apply (completed_run w (arguments st) mp st st'
           (λ tr, commands_run tr = commands_run (trace st))
           (λ tr, commands_run tr =
                    commands_run (trace st) ++ post_install_commands (arguments st)));
    [|done|done|exact Hrun].
  apply perform_installation_completed; [done|..].
  - intros tr c r Hc <-. apply commands_run_snoc_other. by destruct c.
  - intros tr c r Hc <-. apply commands_run_snoc_other. by destruct c.
  - intros. apply installation_steps_commands.
Qed.

(** C3 (amended).  The command lists a completed run has passed to
    [run_custom_user_commands] are, in order: [install_paru], the literal
    mariadb command, one 'usermod -a -G docker <username>' per configured
    user, the literal postgres command and, if set, the configured
    'custom-commands'.  Hence two completed runs whose configurations agree
    on the user names and on 'custom-commands' have passed the same command
    lists. *)
Theorem commands_follow_users_and_custom_commands :
  (∀ mp st st',
     perform_installation w mp st = (st', Ok tt) →
     commands_run (trace st') =
       commands_run (trace st) ++
       [VList ["git clone https://aur.archlinux.org/paru.git"; "cd paru";
               "makepkg -si --noconfirm"];
        VList ["mariadb-install-db --user=mysql --basedir=/usr --datadir=/var/lib/mysql"]] ++
       ((λ name, VList ["usermod -a -G docker " +:+ name]) <$>
          usernames (default (VList []) (arguments st !! "!users"))) ++
       [VList ["sudo -u postgres initdb -D /var/lib/postgres/data"]] ++
       (if truthy (default VNone (arguments st !! "custom-commands"))
        then [default VNone (arguments st !! "custom-commands")] else [])) ∧
  (∀ mp1 mp2 st1 st2 st1' st2',
     perform_installation w mp1 st1 = (st1', Ok tt) →
     perform_installation w mp2 st2 = (st2', Ok tt) →
     commands_run (trace st1) = commands_run (trace st2) →
     usernames (default (VList []) (arguments st1 !! "!users"))
       = usernames (default (VList []) (arguments st2 !! "!users")) →
     default VNone (arguments st1 !! "custom-commands")
       = default VNone (arguments st2 !! "custom-commands") →
     commands_run (trace st1') = commands_run (trace st2')).
Proof.
  split.
  - intros mp st st' Hrun. exact (completed_commands mp st st' Hrun).
  - intros mp1 mp2 st1 st2 st1' st2' Hrun1 Hrun2 Hbefore Hnames Hcustom.
    rewrite (completed_commands _ _ _ Hrun1), (completed_commands _ _ _ Hrun2).
    unfold post_install_commands. by rewrite Hbefore, Hnames, Hcustom.
Qed.

(** C9.  The configured 'packages' list [l] is passed on to
    [add_additional_packages] (after the base list) exactly when it is
    non-empty and its first element is not the empty string; a list that
    starts with '' is dropped as a whole. *)
Theorem user_packages_forwarded_iff mp st st' l :
  arguments st !! "packages" = Some (VList l) →
  perform_installation w mp st = (st', Ok tt) →
  (package_lists (trace st') = package_lists (trace st) ++ [base_packages; l]
     ↔ l ≠ [] ∧ head l ≠ Some "") ∧
  (package_lists (trace st') = package_lists (trace st) ++ [base_packages]
     ↔ ¬ (l ≠ [] ∧ head l ≠ Some "")).
Proof.
  intros Hp Hrun.
  assert (package_lists (trace st') =
            package_lists (trace st) ++
              (if decide (l ≠ [] ∧ head l ≠ Some "") then [base_packages; l]
               else [base_packages])) as Hlists.
  { apply (completed_run w (arguments st) mp st st'
             (λ tr, package_lists tr = package_lists (trace st)));
      [|done|done|exact Hrun].
    apply perform_installation_completed; [done|..].
    - intros tr c r Hc <-. apply package_lists_snoc_other. by destruct c.
    - intros tr c r Hc <-. apply package_lists_snoc_other. by destruct c.
    - intros. by apply installation_steps_packages. }
  rewrite Hlists. destruct (decide (l ≠ [] ∧ head l ≠ Some "")) as [Hc|Hc].
  - split; [done|]. split; [|done]. intros Heq. by apply app_inv_head in Heq.
  - split; [|done]. split; [|done]. intros Heq. by apply app_inv_head in Heq.
Qed.

End Commands.

(** ** The question phase *)

Section Questions.

Variable w : World.

Lemma ask_user_questions_issue : ask_user_questions w = issue w menu_calls.
Proof. reflexivity. Qed.

Lemma issue_spec cs st :
  ∃ evs, trace (issue w cs st).1 = trace st ++ evs ∧
    match (issue w cs st).2 with
    | Ok _ => evs.*1 = cs ∧ Forall returned evs
    | Exc e => ∃ pre c, evs = pre ++ [(c, Raised e)] ∧ Forall returned pre ∧
                        c ∈ cs ∧ pre.*1 `prefix_of` cs
    end.
Proof.
  revert st. induction cs as [|c cs IH]; intros st; simpl.
  - exists []. by rewrite app_nil_r.
  - unfold mbind, M_bind, bind, call_menu.
    destruct (reply w (trace st) c) as [v|e] eqn:Hr; simpl.
    + match goal with |- context [issue w cs ?s] => destruct (IH s) as (evs & Htr & H) end.
      exists ((c, Returned v) :: evs). split.
      { rewrite Htr. simpl. by rewrite <- app_assoc. }
      destruct (issue w cs _).2 as [[]|e].
      * destruct H as [<- H]. split; [done|]. constructor; [by exists v | done].
      * destruct H as (pre & c' & -> & Hpre & Hin & Hpref).
        exists ((c, Returned v) :: pre), c'. split; [done|].
        split; [constructor; [by exists v | done]|].
        split; [by right|]. simpl. by apply prefix_cons.
    + exists [(c, Raised e)]. split; [done|]. exists [], c.
      split; [done|]. split; [constructor|]. split; [by left | apply prefix_nil].
Qed.

Lemma enabled_selectors_returned evs :
  Forall returned evs →
  enabled_selectors evs =
    omap (λ c, match c with GlobalMenu_enable s _ => Some s | _ => None end) evs.*1.
Proof.
  induction 1 as [|[c r] evs [v Hv] _ IH]; [done|].
  simpl in *. subst r. rewrite IH. by destruct c.
Qed.

(** C1 (amended).  A run of [ask_user_questions] that returns has enabled,
    in this order, the thirteen entries the specification lists and, besides
    them, 'archinstall-language', the separator and the three action
    entries 'install', 'save_config' and 'abort': eighteen in all. *)
Theorem ask_user_questions_enables st st' :
  ask_user_questions w st = (st', Ok tt) →
  ∃ evs, trace st' = trace st ++ evs ∧
    enabled_selectors evs = [
      "archinstall-language"; "mirror_config"; "locale_config"; "disk_config";
      "disk_encryption"; "bootloader"; "hostname"; "!root-password"; "!users";
      "packages"; "parallel downloads"; "timezone"; "ntp";
      "additional-repositories"; "__separator__"; "install"; "save_config";
      "abort"] ∧
    (∀ s, s ∈ enabled_selectors evs ↔
          s ∈ spec_menu_entries ∨
          s ∈ ["archinstall-language"; "__separator__"; "install";
               "save_config"; "abort"]).
Proof.
  intros Hrun. rewrite ask_user_questions_issue in Hrun.
  destruct (issue_spec menu_calls st) as (evs & Htr & H).
  rewrite Hrun in Htr, H. simpl in Htr, H. destruct H as [Hcalls Hret].
  exists evs. split; [done|].
  assert (enabled_selectors evs = menu_entries.*1) as ->.
  { by rewrite (enabled_selectors_returned _ Hret), Hcalls. }
  split; [done|].
  intros s. unfold spec_menu_entries. simpl.
  rewrite !elem_of_cons, !elem_of_nil. tauto.
Qed.
End Questions.

(** ** Failures of library calls *)

Lemma no_failure_snoc evs c v : no_failure evs → no_failure (evs ++ [(c, Returned v)]).
Proof. intros H. apply Forall_app. split; [done | by repeat constructor]. Qed.

Ltac failed_here :=
  right; eexists _, _; split; [reflexivity | assumption].

Ltac failures_side :=
  try done; try assumption; intros; cbv beta in *;
  first
    [ eapply since_snoc;
      [eassumption
      | intros; first [by apply no_failure_snoc | failed_here | left; failed_here]]
    | eapply since_mono;
      [eassumption | intros; first [by left | by left; left]] ].

Section Failures.

Variable w : World.
Hypothesis Hexit : exit_hands_back w.

Ltac at_try m :=
  lazymatch m with
  | try_except_Exception_pass _ => fail
  | _ => idtac
  end.

Lemma installation_steps_failures a0 t0 dc lc de t m :
  triple a0 (since t0 no_failure) (installation_steps w dc lc de t m)
    (λ _, since t0 no_failure) (λ e, since t0 (failed_at e)).
Proof.
  unfold installation_steps. walk_until at_try failures_side.
  apply (triple_try _ _ _ _ _ (λ e, since t0 (λ evs,
           ∃ pre, evs = pre ++ [(drop_to_shell, Raised e)] ∧ no_failure pre))).
  - apply triple_call; [failures_side|].
    intros tr e Htr _. eapply since_snoc; [exact Htr|]. intros evs Hevs. by exists evs.
  - intros e tr Htr. destruct (is_Exception e).
    + eapply since_mono; [exact Htr|]. intros evs (pre & -> & Hpre).
      apply Forall_app. split; [done | by repeat constructor].
    + eapply since_mono; [exact Htr|]. intros evs (pre & -> & Hpre).
      right. by exists pre, drop_to_shell.
Qed.

Lemma perform_installation_failures a0 t0 mp :
  triple a0 (since t0 no_failure) (perform_installation w mp)
    (λ _, since t0 no_failure) (λ e, since t0 (propagated e)).
Proof.
  unfold perform_installation. walk failures_side.
  apply (triple_bind _ _ _ _ (λ _, since t0 no_failure));
    [|intros ?; walk failures_side].
  apply (triple_with w _ _ (since t0 no_failure) (since t0 no_failure));
    try (apply triple_call; failures_side).
  eapply triple_guarded; [apply installation_steps_failures | |].
  - intros tr Htr. destruct (reply w tr _); failures_side.
  - intros tr e Htr. specialize (Hexit tr e).
    destruct (reply w tr _) as [x|x].
    + rewrite Hexit. eapply since_snoc; [exact Htr|]. intros evs Hevs.
      right. by exists evs, (Returned x).
    + subst x. eapply since_snoc; [exact Htr|]. intros evs Hevs.
      right. by exists evs, (Raised e).
Qed.

Lemma prepare_and_install_failures a0 t0 :
  triple a0 (since t0 no_failure) (prepare_and_install w)
    (λ _, since t0 no_failure) (λ e, since t0 (propagated e)).
Proof.
  unfold prepare_and_install. walk failures_side.
  apply perform_installation_failures.
Qed.

Lemma returned_passed evs : Forall returned evs → no_failure evs.
Proof.
  intros H. eapply Forall_impl; [exact H|].
  intros [c r] [v Hv]. simpl in Hv. by subst r.
Qed.

Lemma script_failures st :
  ∃ evs, trace (script w st).1 = trace st ++ evs ∧
    match (script w st).2 with
    | Ok _ => no_failure evs
    | Exc e => propagated e evs
    end.
Proof.
  rewrite script_split, ask_user_questions_issue.
  destruct (issue_spec w menu_calls st) as (evs & Htr & H).
  destruct (issue w menu_calls st) as [st1 [[]|e]]; simpl in *.
  - destruct H as [_ Hret].
    destruct (prepare_and_install_failures (arguments st1) (trace st) st1 eq_refl)
      as [_ Hpost].
    { exists evs. split; [done | by apply returned_passed]. }
    by destruct (prepare_and_install w st1).2.
  - exists evs. split; [done|]. destruct H as (pre & c & -> & Hpre & _).
    left. right. exists pre, c. split; [done | by apply returned_passed].
Qed.

Lemma no_failure_raised pre c e post :
  no_failure (pre ++ (c, Raised e) :: post) → c = drop_to_shell.
Proof.
  intros H. apply Forall_app in H as [_ H]. by inversion H.
Qed.

Lemma failed_at_last e0 evs pre c e post :
  failed_at e0 evs → evs = pre ++ (c, Raised e) :: post → c ≠ drop_to_shell →
  e = e0 ∧ post = [].
Proof.
  intros [Hno | (pre0 & c0 & -> & Hpre0)] Heq Hc.
  - subst evs. by apply no_failure_raised in Hno.
  - apply snoc_split in Heq as [(-> & -> & [= -> ->]) | (l3 & -> & ->)]; [done|].
    by apply no_failure_raised in Hpre0.
Qed.

Lemma propagated_last e0 evs pre c e post :
  propagated e0 evs → evs = pre ++ (c, Raised e) :: post → c ≠ drop_to_shell →
  e = e0 ∧ (post = [] ∨ ∃ x, post = [(Installer_exit (Some e), x)]).
Proof.
  intros [Hf | (pre1 & x & -> & Hx & Hf)] Heq Hc.
  - destruct (failed_at_last _ _ _ _ _ _ Hf Heq Hc) as [-> ->]. auto.
  - apply snoc_split in Heq as [(-> & -> & [= <- ->]) | (l3 & -> & ->)].
    + simpl in Hx. subst. auto.
    + destruct (failed_at_last _ _ _ _ _ _ Hf eq_refl Hc) as [-> ->].
      split; [done|]. right. by exists x.
Qed.

End Failures.

(** C5.  Where the library's [__exit__] hands exceptions back, every
    exception raised by a library call other than [drop_to_shell] leaves
    [perform_installation], and the script, unchanged; after the failing
    call the script issues no further call (no retry, recovery or
    rollback), the [with] statement's own [__exit__] excepted. *)
Theorem library_failures_propagate w :
  exit_hands_back w →
  (∀ mp st st' r,
     perform_installation w mp st = (st', r) →
     failures_escape (trace st) (trace st') r) ∧
  (∀ st st' r,
     script w st = (st', r) → failures_escape (trace st) (trace st') r).
Proof.
  intros Hexit.
  assert (∀ t0 t1 r,
            (∃ evs, t1 = t0 ++ evs ∧
               match r with Ok _ => no_failure evs | Exc e => propagated e evs end) →
            failures_escape t0 t1 r) as Hshape.
  { intros t0 t1 r (evs & -> & H) pre c e post Heq Hc.
    apply app_inv_head in Heq. destruct r as [[]|e0].
    - subst evs. by apply no_failure_raised in H.
    - destruct (propagated_last _ _ _ _ _ _ H Heq Hc) as [-> ?]. done. }
  split.
  - intros mp st st' r Hrun. apply Hshape.
    destruct (triple_run _ _ _ _ _ _ _ _
                (perform_installation_failures w Hexit (arguments st) (trace st) mp)
                eq_refl (since_refl _ no_failure (Forall_nil_2 _)) Hrun) as [_ H].
    by destruct r.
  - intros st st' r Hrun. apply Hshape.
    destruct (script_failures w Hexit st) as (evs & Htr & H).
    rewrite Hrun in Htr, H. by exists evs.
Qed.

(** ** The chroot shell *)

Lemma nothing_caught_snoc evs c r :
  c ≠ drop_to_shell → nothing_caught evs → nothing_caught (evs ++ [(c, r)]).
Proof.
  intros Hc H. apply Forall_app. split; [done|]. repeat constructor.
  destruct c; done.
Qed.

Lemma after_shell_returned evs c v :
  c ≠ drop_to_shell → after_shell (Ok tt) evs →
  after_shell (Ok tt) (evs ++ [(c, Returned v)]).
Proof.
  intros Hc [H | (tail & (pre & e & -> & Hpre & He) & [(x & rest & ->) Hno] & Hret)].
  - left. by apply nothing_caught_snoc.
  - right. exists (((Installer_exit None, x) :: rest) ++ [(c, Returned v)]).
    split; [|split].
    + exists pre, e. by rewrite <- app_assoc.
    + split; [by eexists _, _ | by apply nothing_caught_snoc].
    + apply Forall_app. split; [done|]. repeat constructor. by exists v.
Qed.

Lemma after_shell_raised evs c e :
  c ≠ drop_to_shell → after_shell (Ok tt) evs →
  after_shell (Exc e) (evs ++ [(c, Raised e)]).
Proof.
  intros Hc [H | (tail & (pre & e' & -> & Hpre & He) & [(x & rest & ->) Hno] & Hret)].
  - left. by apply nothing_caught_snoc.
  - right. exists (((Installer_exit None, x) :: rest) ++ [(c, Raised e)]).
    split; [|split].
    + exists pre, e'. by rewrite <- app_assoc.
    + split; [by eexists _, _ | by apply nothing_caught_snoc].
    + exists c. apply last_snoc.
Qed.

Ltac shell_side :=
  try done; try assumption; intros; cbv beta in *;
  first
    [ eapply since_snoc;
      [eassumption
      | intros; first [ by apply nothing_caught_snoc
                      | by left; apply nothing_caught_snoc
                      | by apply after_shell_returned
                      | by apply after_shell_raised ] ]
    | eapply since_mono; [eassumption | intros; by left] ].

Section Shell.

Variable w : World.

Ltac at_try m :=
  lazymatch m with
  | try_except_Exception_pass _ => fail
  | _ => idtac
  end.

Lemma installation_steps_shell a0 t0 dc lc de t m :
  triple a0 (since t0 nothing_caught) (installation_steps w dc lc de t m)
    (λ _, since t0 (λ evs, nothing_caught evs ∨ caught_then [] evs))
    (λ _, since t0 nothing_caught).
Proof.
  unfold installation_steps. walk_until at_try shell_side.
  apply (triple_try _ _ _ _ _ (λ e, since t0 (λ evs,
           ∃ pre, evs = pre ++ [(drop_to_shell, Raised e)] ∧ nothing_caught pre))).
  - apply triple_call.
    + intros tr x Htr _. eapply since_snoc; [exact Htr|]. intros evs Hevs.
      left. apply Forall_app. split; [done | by repeat constructor].
    + intros tr x Htr _. eapply since_snoc; [exact Htr|]. intros evs Hevs.
      by exists evs.
  - intros x tr Htr. destruct (is_Exception x) eqn:He.
    + eapply since_mono; [exact Htr|]. intros evs (pre & -> & Hpre).
      right. by exists pre, x.
    + eapply since_mono; [exact Htr|]. intros evs (pre & -> & Hpre).
      apply Forall_app. split; [done | by repeat constructor].
Qed.

Lemma perform_installation_shell a0 t0 mp :
  triple a0 (since t0 nothing_caught) (perform_installation w mp)
    (λ _, since t0 (after_shell (Ok tt))) (λ e, since t0 (after_shell (Exc e))).
Proof.
  unfold perform_installation. walk shell_side.
  apply (triple_bind _ _ _ _ (λ _, since t0 (after_shell (Ok tt))));
    [|intros ?; walk shell_side].
  apply (triple_with w _ _ (since t0 nothing_caught) (since t0 nothing_caught));
    try (apply triple_call; shell_side).
  eapply triple_guarded; [apply installation_steps_shell | |].
  - intros tr Htr. destruct (reply w tr _) as [x|x];
      (eapply since_snoc; [exact Htr|]);
      (intros evs [Hno | (pre & e & -> & Hpre & He)];
       [left; by apply nothing_caught_snoc|right]).
    + exists [(Installer_exit None, Returned x)]. split; [|split].
      * exists pre, e. by rewrite <- app_assoc.
      * split; [by eexists _, _ | by repeat constructor].
      * repeat constructor. by exists x.
    + exists [(Installer_exit None, Raised x)]. split; [|split].
      * exists pre, e. by rewrite <- app_assoc.
      * split; [by eexists _, _ | by repeat constructor].
      * by exists (Installer_exit None).
  - intros tr e Htr. destruct (reply w tr _) as [x|x]; [destruct (truthy x)|];
      shell_side.
Qed.

Lemma caught_split pre x post pre' y tail :
  pre ++ x :: post = pre' ++ y :: tail →
  ¬ not_caught x → nothing_caught pre' → nothing_caught tail →
  pre = pre' ∧ post = tail.
Proof.
  revert pre'. induction pre as [|a pre IH]; intros [|z pre'] Heq Hx Hpre Htail;
    simpl in Heq; injection Heq as -> Heq.
  - done.
  - by inversion Hpre.
  - subst tail. apply Forall_app in Htail as [_ Htail]. by inversion Htail.
  - inversion Hpre; subst. by destruct (IH pre' Heq) as [-> ->].
Qed.

End Shell.

(** C4 (amended).  When [drop_to_shell] raises an exception [e] that is an
    instance of [Exception], the [with] block is left as on the normal
    path ([__exit__] is called without an exception); the run then
    completes normally if the remaining library calls return, and an
    exception it ends with comes from one of those later calls. *)
Theorem shell_failure_is_swallowed w mp st st' r pre e post :
  perform_installation w mp st = (st', r) →
  trace st' = trace st ++ pre ++ (drop_to_shell, Raised e) :: post →
  is_Exception e = true →
  (∃ x rest, post = (Installer_exit None, x) :: rest) ∧
  (Forall returned post → r = Ok tt) ∧
  (∀ e', r = Exc e' → ∃ c, last post = Some (c, Raised e')).
Proof.
  intros Hrun Htr He.
  destruct (triple_run _ _ _ _ _ _ _ _
              (perform_installation_shell w (arguments st) (trace st) mp)
              eq_refl (since_refl _ nothing_caught (Forall_nil_2 _)) Hrun) as [_ H].
  assert (∃ evs, trace st' = trace st ++ evs ∧ after_shell r evs)
    as (evs & Hevs & Hshape) by (by destruct r as [[]|]).
  rewrite Hevs in Htr. apply app_inv_head in Htr. subst evs.
  destruct Hshape as [Hno | (tail & (pre' & e'' & Heq & Hpre & _) & [Hexit Hno] & Hr)].
  - apply Forall_app in Hno as [_ Hno]. inversion Hno as [|? ? Hbad _].
    simpl in Hbad. congruence.
  - destruct (caught_split _ _ _ _ _ _ Heq) as [-> ->]; [|done|done|].
    { simpl. congruence. }
    split; [done|]. destruct r as [[]|e0].
    + split; [done | discriminate].
    + destruct Hr as [c Hlast]. split.
      * intros Hret. rewrite Forall_forall in Hret.
        assert ((c, Raised e0) ∈ tail) as Hin.
        { apply last_Some in Hlast as [l' ->]. apply elem_of_app. right.
          apply list_elem_of_here. }
        by destruct (Hret _ Hin).
      * intros e' [= <-]. by exists c.
Qed.

(** ** The order of the phases *)

Section Phases.

Variable w : World.

Lemma all_in_snoc p evs c r : phase c = p → all_in p evs → all_in p (evs ++ [(c, r)]).
Proof. intros Hc H. apply Forall_app. split; [done | by repeat constructor]. Qed.

Ltac phase_side :=
  try done; try assumption; intros; cbv beta in *;
  try (eapply since_snoc; [eassumption | intros; by apply all_in_snoc]).

Lemma installation_steps_phase a0 t0 dc lc de t m :
  triple a0 (since t0 (all_in Installing)) (installation_steps w dc lc de t m)
    (λ _, since t0 (all_in Installing)) (λ _, since t0 (all_in Installing)).
Proof. unfold installation_steps. walk phase_side. Qed.

Lemma perform_installation_phase a0 t0 mp :
  triple a0 (since t0 (all_in Installing)) (perform_installation w mp)
    (λ _, since t0 (all_in Installing)) (λ _, since t0 (all_in Installing)).
Proof.
  unfold perform_installation. walk phase_side.
  apply (triple_bind _ _ _ _ (λ _, since t0 (all_in Installing)));
    [|intros ?; walk phase_side].
  apply (triple_with w _ _ (since t0 (all_in Installing)) (since t0 (all_in Installing)));
    try (apply triple_call; phase_side).
  eapply triple_guarded; [apply installation_steps_phase | |].
  - intros tr Htr. destruct (reply w tr _); phase_side.
  - intros tr e Htr. destruct (reply w tr _) as [x|x]; [destruct (truthy x)|];
      phase_side.
Qed.

Lemma prepare_and_install_phase st :
  ∃ evs, trace (prepare_and_install w st).1 = trace st ++ evs ∧
         prepared_then_installed evs.
Proof.
  unfold prepare_and_install, mbind, M_bind, bind, args_index, args_get,
    storage_get, call.
  destruct (arguments st !! "disk_config") as [dc|]; simpl.
  2: { exists []. split; [by rewrite app_nil_r|]. exists [], [].
       split; [done|]. split; [constructor|]. split; [constructor|]. done. }
  destruct (reply w (trace st) _) as [v1|e1] eqn:H1; simpl.
  2: { eexists [_]. split; [done|]. eexists [_], []. split; [done|].
       split; [by repeat constructor|]. split; [constructor | done]. }
  destruct (reply w (trace st ++ _) perform_filesystem_operations)
    as [v2|e2] eqn:H2; simpl.
  2: { eexists [_; _]. split; [by rewrite <- app_assoc|]. eexists [_; _], [].
       split; [done|]. split; [by repeat constructor|]. split; [constructor | done]. }
  match goal with |- context [perform_installation w ?mp ?s] =>
    destruct (perform_installation_phase (arguments s) (trace s) mp s eq_refl
                (since_refl _ (all_in Installing) (Forall_nil_2 _)))
      as [_ Hpost];
    assert (since (trace s) (all_in Installing)
              (trace (perform_installation w mp s).1)) as (inst & Htr & Hinst)
      by (by destruct (perform_installation w mp s).2)
  end.
  rewrite Htr. simpl.
  eexists ([_; _] ++ inst). split; [by rewrite <- !app_assoc|].
  eexists [_; _], inst. split; [done|]. split; [by repeat constructor|].
  split; [done|]. intros _. by eexists.
Qed.

End Phases.

(** C6.  The calls of a run come in three blocks: the menu calls of
    [ask_user_questions], then the disk preparation, then the installation.
    Disk preparation starts only after all of [ask_user_questions] has
    returned, and installation only after [perform_filesystem_operations]
    has. *)
Theorem phases_are_ordered w st st' r :
  script w st = (st', r) →
  ∃ asked prepared installed,
    trace st' = trace st ++ asked ++ prepared ++ installed ∧
    all_in Asking asked ∧ all_in Preparing prepared ∧ all_in Installing installed ∧
    (prepared ++ installed ≠ [] → asked.*1 = menu_calls ∧ Forall returned asked) ∧
    (installed ≠ [] →
     ∃ v, last prepared = Some (perform_filesystem_operations, Returned v)).
Proof.
  intros Hrun. rewrite script_split, ask_user_questions_issue in Hrun.
  destruct (issue_spec w menu_calls st) as (asked & Htr & H).
  assert (all_in Asking asked) as Hasked.
  { assert (Forall (λ ev, ev.1 ∈ menu_calls) asked) as Hin.
    { destruct (issue w menu_calls st).2 as [[]|e].
      - destruct H as [Hcalls _]. rewrite <- Hcalls. apply Forall_forall.
        intros ev Hev. by apply list_elem_of_fmap_2.
      - destruct H as (pre & c & -> & _ & Hc & Hpre). apply Forall_app. split.
        + apply Forall_forall. intros ev Hev.
          eapply elem_of_prefix; [|exact Hpre]. by apply list_elem_of_fmap_2.
        + constructor; [exact Hc | constructor]. }
    eapply Forall_impl; [exact Hin|]. intros [c x] Hc. simpl in *.
    assert (Forall (λ c, phase c = Asking) menu_calls) as Hall by (by repeat constructor).
    rewrite Forall_forall in Hall. by apply Hall. }
  destruct (issue w menu_calls st) as [st1 [[]|e]]; simpl in *.
  - destruct (prepare_and_install_phase w st1)
      as (evs & Htr' & prepared & installed & -> & Hp & Hi & Hlast).
    rewrite Hrun in Htr'. simpl in Htr'.
    exists asked, prepared, installed. split; [by rewrite Htr', Htr, <- app_assoc|].
    destruct H as [Hcalls Hret]. by repeat split.
  - injection Hrun as <- <-. exists asked, [], [].
    split; [by rewrite app_nil_r|]. split; [done|].
    split; [constructor|]. split; [constructor|]. done.
Qed.

(** ** Calls and the configuration that calls for them *)

Lemma since_run a0 (I : list Event → Prop) (m : M unit) st :
  triple a0 (since (trace st) I) m (λ _, since (trace st) I) (λ _, since (trace st) I) →
  arguments st = a0 → I [] →
  ∃ evs, trace (m st).1 = trace st ++ evs ∧ I evs.
Proof.
  intros H Ha H0. destruct (H st Ha (since_refl _ _ H0)) as [_ Hpost].
  by destruct (m st).2.
Qed.

Lemma all_called_for_snoc a mp evs c r :
  all_called_for a mp evs → called_for a mp c → all_called_for a mp (evs ++ [(c, r)]).
Proof. intros H Hc. apply Forall_app. split; [done | by repeat constructor]. Qed.

Ltac called_for_facts :=
  repeat match goal with
    | H : negb _ = true |- _ => apply negb_true_iff in H
    | H : bool_decide _ = false |- _ => apply bool_decide_eq_false in H
    | H : (_ =? _)%nat = false |- _ => apply Nat.eqb_neq in H
    | H1 : ?e = Ok ?x, H2 : ?e = Ok ?y |- _ =>
        is_var y; assert (y = x) by congruence; subst y; clear H2
    end.

Ltac called_for_pieces :=
  repeat first [eassumption | reflexivity | split | eexists].

Ltac called_for_solve :=
  unfold called_for; called_for_facts;
  first [ exact I
        | solve [called_for_pieces]
        | left; solve [called_for_pieces]
        | right; left; solve [called_for_pieces]
        | right; solve [called_for_pieces]
        | right; right; solve [called_for_pieces] ].

Ltac called_for_side :=
  try done; try assumption; intros; cbv beta in *;
  try (eapply since_snoc;
       [eassumption
       | intros; apply all_called_for_snoc; [assumption | called_for_solve]]).

Section CalledFor.

Variable w : World.

Lemma installation_steps_called_for a0 t0 mp dc lc t m :
  a0 !! "disk_config" = Some dc →
  a0 !! "locale_config" = Some lc →
  py_in "testing" (default (VList []) (a0 !! "additional-repositories")) = Ok t →
  py_in "multilib" (default (VList []) (a0 !! "additional-repositories")) = Ok m →
  triple a0 (since t0 (all_called_for a0 mp))
    (installation_steps w dc lc (default VNone (a0 !! "disk_encryption")) t m)
    (λ _, since t0 (all_called_for a0 mp)) (λ _, since t0 (all_called_for a0 mp)).
Proof.
  intros Hdc Hlc Ht Hm. unfold installation_steps. walk called_for_side.
Qed.

Lemma perform_installation_called_for a0 t0 mp :
  triple a0 (since t0 (all_called_for a0 mp)) (perform_installation w mp)
    (λ _, since t0 (all_called_for a0 mp)) (λ _, since t0 (all_called_for a0 mp)).
Proof.
  unfold perform_installation. walk called_for_side.
  apply (triple_bind _ _ _ _ (λ _, since t0 (all_called_for a0 mp)));
    [|intros ?; walk called_for_side].
  apply (triple_with w _ _ (since t0 (all_called_for a0 mp))
           (since t0 (all_called_for a0 mp)));
    try (apply triple_call; called_for_side).
  eapply triple_guarded; [by apply installation_steps_called_for | |].
  - intros tr Htr. destruct (reply w tr _); called_for_side.
  - intros tr e Htr. destruct (reply w tr _) as [x|x]; [destruct (truthy x)|];
      called_for_side.
Qed.

Lemma perform_installation_calls mp st :
  ∃ evs, trace (perform_installation w mp st).1 = trace st ++ evs ∧
         all_called_for (arguments st) mp evs.
Proof.
  apply (since_run (arguments st)); [|done|apply Forall_nil_2].
  apply perform_installation_called_for.
Qed.

End CalledFor.

Lemma installation_calls_called_for w mp st c :
  c ∈ installation_calls w mp st → called_for (arguments st) mp c.
Proof.
  unfold installation_calls, installation_events.
  destruct (perform_installation_calls w mp st) as (evs & -> & Hall).
  rewrite drop_app_length. intros Hc.
  apply list_elem_of_fmap in Hc as (ev & -> & Hev).
  unfold all_called_for in Hall. rewrite Forall_forall in Hall. by apply Hall.
Qed.

Lemma layout_not_Pre_mount (a : gmap string Value) :
  (∃ dc ct, a !! "disk_config" = Some dc ∧ get_config_type dc = Ok ct ∧
            ct ≠ Pre_mount) →
  ∃ c, a !! "disk_config" = Some (VDiskLayout c) ∧ config_type c ≠ Pre_mount.
Proof.
  intros (dc & ct & Hdc & Hct & Hne). destruct dc; try discriminate.
  injection Hct as <-. by eexists.
Qed.

Lemma default_truthy d (a : gmap string Value) k :
  truthy (default VNone (a !! k)) = true →
  a !! k = Some (default d (a !! k)) ∧ default d (a !! k) = default VNone (a !! k).
Proof. by destruct (a !! k). Qed.

Lemma py_eq_Grub v : py_eq v (VBootloader Grub) = true → v = VBootloader Grub.
Proof.
  unfold py_eq. intros H. apply bool_decide_eq_true in H.
  destruct v as [| | | | | | |[|]| | | | | |[|]| |]; simpl in H; congruence.
Qed.

(** X1.  The two disk steps of the [with] block depend on the layout: a run
    calls [mount_ordered_layout] only if 'disk_config' is a layout whose
    type is not [Pre_mount], and [generate_key_files] only if, besides,
    'disk_encryption' is set to an encryption whose type is not
    [NoEncryption]. *)
Theorem disk_steps_follow_the_layout w mp st :
  (mount_ordered_layout ∈ installation_calls w mp st →
   ∃ c, arguments st !! "disk_config" = Some (VDiskLayout c) ∧
        config_type c ≠ Pre_mount) ∧
  (generate_key_files ∈ installation_calls w mp st →
   (∃ c, arguments st !! "disk_config" = Some (VDiskLayout c) ∧
         config_type c ≠ Pre_mount) ∧
   (∃ e, arguments st !! "disk_encryption" = Some (VDiskEncryption e) ∧
         encryption_type e ≠ NoEncryption)).
Proof.
  split; intros Hc; apply installation_calls_called_for in Hc; simpl in Hc.
  - by apply layout_not_Pre_mount.
  - destruct Hc as (Hlayout & _ & et & Het & Hne).
    split; [by apply layout_not_Pre_mount|].
    destruct (arguments st !! "disk_encryption") as [[]|]; try discriminate.
    injection Het as <-. by eexists.
Qed.

(** X2.  What the run tells the library about mirrors comes from
    'mirror_config', the Blackarch mirror excepted: [use_mirrors] is only
    called with the configured regions, and only if there are any;
    [add_custom_mirrors] with the Blackarch mirror or with the configured
    custom mirrors, if there are any; [set_mirrors] with the configured
    mirror configuration. *)
Theorem mirror_calls_follow_mirror_config w mp st :
  (∀ regions, use_mirrors regions ∈ installation_calls w mp st →
     ∃ mc, arguments st !! "mirror_config" = Some (VMirrorConfig mc) ∧
           regions = VRegions (mirror_regions mc) ∧ mirror_regions mc ≠ []) ∧
  (∀ l, add_custom_mirrors l ∈ installation_calls w mp st →
     l = VMirrors [blackarch_mirror] ∨
     ∃ mc, arguments st !! "mirror_config" = Some (VMirrorConfig mc) ∧
           l = VMirrors (custom_mirrors mc) ∧ custom_mirrors mc ≠ []) ∧
  (∀ mirror_config, set_mirrors mirror_config ∈ installation_calls w mp st →
     arguments st !! "mirror_config" = Some mirror_config ∧
     truthy mirror_config = true).
Proof.
  split; [|split].
  - intros regions Hc. apply installation_calls_called_for in Hc.
    destruct Hc as (_ & Hr & Ht).
    destruct (arguments st !! "mirror_config") as [[]|]; try discriminate.
    injection Hr as <-. eexists. split; [done|]. split; [done|].
    simpl in Ht. apply negb_true_iff, bool_decide_eq_false in Ht. done.
  - intros l Hc. apply installation_calls_called_for in Hc.
    destruct Hc as [-> | (_ & Hl & Ht)]; [by left | right].
    destruct (arguments st !! "mirror_config") as [[]|]; try discriminate.
    injection Hl as <-. eexists. split; [done|]. split; [done|].
    simpl in Ht. apply negb_true_iff, bool_decide_eq_false in Ht. done.
  - intros mirror_config Hc. apply installation_calls_called_for in Hc.
    destruct Hc as (-> & Ht). split; [|done].
    by destruct (arguments st !! "mirror_config").
Qed.

(** X3.  The [Installer] is built for the mount point the function was
    given, with the configured 'disk_config' and 'disk_encryption' ([None]
    when absent) and the configured 'kernels'; [minimal_installation] gets
    the configured locale, the configured host name or 'archlinux', and as
    [testing] and [multilib] whether these two names occur in
    'additional-repositories' (an empty list when absent). *)
Theorem installer_is_built_from_the_configuration w mp st :
  (∀ m dc de kernels,
     Installer_new m dc de kernels ∈ installation_calls w mp st →
     m = mp ∧ arguments st !! "disk_config" = Some dc ∧
     de = default VNone (arguments st !! "disk_encryption") ∧
     kernels = default (VList ["linux-hardened"]) (arguments st !! "kernels")) ∧
  (∀ testing multilib hostname locale_config,
     minimal_installation testing multilib hostname locale_config
       ∈ installation_calls w mp st →
     py_in "testing" (default (VList []) (arguments st !! "additional-repositories"))
       = Ok testing ∧
     py_in "multilib" (default (VList []) (arguments st !! "additional-repositories"))
       = Ok multilib ∧
     hostname = default (VStr "archlinux") (arguments st !! "hostname") ∧
     arguments st !! "locale_config" = Some locale_config).
Proof.
  split.
  - intros m dc de kernels Hc. by apply installation_calls_called_for in Hc.
  - intros t m h lc Hc. by apply installation_calls_called_for in Hc.
Qed.

(** X4.  The run installs and enables nothing of its own choosing beyond
    the two literal lists: [add_additional_packages] is called with the 27
    base packages, with the configured 'packages', or with 'grub' when the
    configured bootloader is Grub; [enable_service] with the 5 base
    services or with the configured 'services'. *)
Theorem only_configured_packages_and_services w mp st :
  (∀ packages, add_additional_packages packages ∈ installation_calls w mp st →
     packages = VList base_packages ∨
     (arguments st !! "packages" = Some packages ∧ truthy packages = true) ∨
     (packages = VStr "grub" ∧
      arguments st !! "bootloader" = Some (VBootloader Grub))) ∧
  (∀ services, enable_service services ∈ installation_calls w mp st →
     services = VList base_services ∨
     (arguments st !! "services" = Some services ∧ truthy services = true)).
Proof.
  split.
  - intros packages Hc. apply installation_calls_called_for in Hc.
    destruct Hc as [[-> Hg] | [-> | [-> Ht]]].
    + right. right. split; [done|]. apply py_eq_Grub in Hg.
      by destruct (arguments st !! "bootloader") as [?|]; simplify_eq/=.
    + by left.
    + right. left. destruct (default_truthy (VList []) _ _ Ht) as [? Heq].
      split; [done|]. by rewrite Heq.
  - intros services Hc. apply installation_calls_called_for in Hc.
    destruct Hc as [-> | [-> Ht]]; [by left | right].
    destruct (default_truthy (VList []) _ _ Ht) as [? Heq].
    split; [done|]. by rewrite Heq.
Qed.

(** X5.  Accounts: [create_users] is only called with the configured
    '!users', and only if that value is true (a non-empty list);
    [user_set_pw] is only called for 'root', with the configured
    '!root-password', and only if that password is not empty. *)
Theorem accounts_follow_the_configuration w mp st :
  (∀ users, create_users users ∈ installation_calls w mp st →
     arguments st !! "!users" = Some users ∧ truthy users = true) ∧
  (∀ user password, user_set_pw user password ∈ installation_calls w mp st →
     user = "root" ∧ arguments st !! "!root-password" = Some password ∧
     ∃ n, py_len password = Ok n ∧ n ≠ 0).
Proof.
  split.
  - intros users Hc. apply installation_calls_called_for in Hc.
    destruct Hc as [-> Ht]. split; [|done].
    by destruct (arguments st !! "!users").
  - intros user password Hc. apply installation_calls_called_for in Hc.
    destruct Hc as (-> & -> & Ht & Hn). split; [done|]. split; [|done].
    by destruct (arguments st !! "!root-password").
Qed.

(** X6.  The optional steps are taken only when configured: [setup_swap]
    only with 'zram' and a true 'swap'; [set_timezone] only with the
    configured, non-empty 'timezone'; [activate_time_synchronization] only
    with a true 'ntp'; and the two steps every run takes get their argument
    from the configuration: [add_bootloader] the 'bootloader' entry,
    [set_keyboard_language] the keyboard layout of 'locale_config'. *)
Theorem optional_steps_follow_the_configuration w mp st :
  (∀ kind, setup_swap kind ∈ installation_calls w mp st →
     kind = "zram" ∧ ∃ swap, arguments st !! "swap" = Some swap ∧ truthy swap = true) ∧
  (∀ zone, set_timezone zone ∈ installation_calls w mp st →
     arguments st !! "timezone" = Some zone ∧ truthy zone = true) ∧
  (activate_time_synchronization ∈ installation_calls w mp st →
     ∃ ntp, arguments st !! "ntp" = Some ntp ∧ truthy ntp = true) ∧
  (∀ bootloader, add_bootloader bootloader ∈ installation_calls w mp st →
     arguments st !! "bootloader" = Some bootloader) ∧
  (∀ layout, set_keyboard_language layout ∈ installation_calls w mp st →
     ∃ lc, arguments st !! "locale_config" = Some (VLocale lc) ∧
           layout = kb_layout lc).
Proof.
  split; [|split; [|split; [|split]]].
  - intros kind Hc. apply installation_calls_called_for in Hc.
    destruct Hc as [-> Ht]. split; [done|].
    destruct (arguments st !! "swap") as [swap|]; [by exists swap | done].
  - intros zone Hc. apply installation_calls_called_for in Hc.
    destruct Hc as [-> Ht]. split; [|done].
    by destruct (arguments st !! "timezone").
  - intros Hc. apply installation_calls_called_for in Hc. simpl in Hc.
    destruct (arguments st !! "ntp") as [ntp|]; [by exists ntp | done].
  - intros bootloader Hc. by apply installation_calls_called_for in Hc.
  - intros layout Hc. apply installation_calls_called_for in Hc.
    destruct Hc as (lc & Hlc & Hl). destruct lc; try discriminate.
    injection Hl as <-. by eexists.
Qed.

(** X7.  A silent installation asks nothing: when 'silent' is set to a true
    value, the run issues none of the calls that render the prompt, build
    and run the yes/no menu, or open the chroot shell. *)
Theorem silent_run_asks_nothing w mp st :
  truthy (default VNone (arguments st !! "silent")) = true →
  Forall (λ c, ¬ interactive c) (installation_calls w mp st).
Proof.
  intros Hsilent. apply Forall_forall. intros c Hc Hi.
  apply installation_calls_called_for in Hc.
  destruct c; simpl in Hi; try done; simpl in Hc; congruence.
Qed.

(** ** Steps that wait for an answer *)

Lemma only_after_nil marker P : only_after marker P [].
Proof. intros pre x post Heq. by destruct pre. Qed.

Lemma only_after_snoc_other marker P evs c r :
  c ≠ marker → only_after marker P evs → only_after marker P (evs ++ [(c, r)]).
Proof.
  intros Hc H pre x post Heq.
  apply snoc_split in Heq as [(-> & -> & [= -> ->]) | (l & -> & ->)]; [done|].
  by eapply H.
Qed.

Lemma only_after_snoc_marker marker (P : list Event → Prop) evs c r :
  P evs → only_after marker P evs → only_after marker P (evs ++ [(c, r)]).
Proof.
  intros HP H pre x post Heq.
  apply snoc_split in Heq as [(-> & -> & _) | (l & -> & ->)]; [done|].
  by eapply H.
Qed.

Ltac gate_side :=
  try done; try assumption; intros; cbv beta in *;
  try (eapply since_snoc;
       [eassumption
       | intros; apply only_after_snoc_other;
         [first [discriminate | congruence] | assumption]]).

Section Gates.

Variable w : World.

(** A trace predicate that holds throughout the [with] body holds
    throughout [perform_installation], if the calls around the body keep
    it. *)
Lemma perform_installation_uniform a0 mp (T : list Event → Prop) :
  (∀ tr c r, housekeeping c → T tr → T (tr ++ [(c, r)])) →
  (∀ dc lc de t m,
     triple a0 T (installation_steps w dc lc de t m) (λ _, T) (λ _, T)) →
  triple a0 T (perform_installation w mp) (λ _, T) (λ _, T).
Proof.
  intros Hkeep Hbody. unfold perform_installation.
  walk ltac:(try done; intros; by apply Hkeep).
  apply (triple_bind _ _ _ _ (λ _, T));
    [|intros ?; walk ltac:(try done; intros; by apply Hkeep)].
  apply (triple_with w _ _ T T); try (apply triple_call; intros; by apply Hkeep).
  eapply triple_guarded; [apply Hbody | |].
  - intros tr Htr. destruct (reply w tr _); by apply Hkeep.
  - intros tr e Htr. destruct (reply w tr _) as [x|x]; [destruct (truthy x)|];
      by apply Hkeep.
Qed.

Lemma installation_events_since a0 mp st (I : list Event → Prop) :
  triple a0 (since (trace st) I) (perform_installation w mp)
    (λ _, since (trace st) I) (λ _, since (trace st) I) →
  arguments st = a0 → I [] → I (installation_events w mp st).
Proof.
  intros H Ha H0. destruct (since_run _ _ _ _ H Ha H0) as (evs & Htr & Hevs).
  unfold installation_events. by rewrite Htr, drop_app_length.
Qed.

Lemma only_after_housekeeping t0 marker P tr c r :
  ¬ housekeeping marker → housekeeping c →
  since t0 (only_after marker P) tr → since t0 (only_after marker P) (tr ++ [(c, r)]).
Proof.
  intros Hm Hc Htr. eapply since_snoc; [exact Htr|]. intros evs Hevs.
  apply only_after_snoc_other; [|done]. by intros ->.
Qed.

Ltac at_call c m :=
  lazymatch m with
  | call _ c => fail
  | _ => idtac
  end.

Lemma installation_steps_espeakup a0 t0 dc lc de t m :
  triple a0
    (since t0 (only_after enable_espeakup (answered accessibility_tools_in_use)))
    (installation_steps w dc lc de t m)
    (λ _, since t0 (only_after enable_espeakup (answered accessibility_tools_in_use)))
    (λ _, since t0 (only_after enable_espeakup (answered accessibility_tools_in_use))).
Proof.
  unfold installation_steps.
  walk_until ltac:(at_call accessibility_tools_in_use) gate_side.
  apply (triple_bind _ _ _ _ (λ ans, since t0 (λ evs,
           only_after enable_espeakup (answered accessibility_tools_in_use) evs ∧
           ∃ pre', evs = pre' ++ [(accessibility_tools_in_use, Returned ans)]))).
  { apply triple_call; [|gate_side].
    intros tr ans Htr _. eapply since_snoc; [exact Htr|]. intros evs Hevs.
    split; [by apply only_after_snoc_other | by exists evs]. }
  intros ans.
  apply (triple_bind _ _ _ _ (λ _, since t0
           (only_after enable_espeakup (answered accessibility_tools_in_use))));
    [|intros ?; walk gate_side].
  apply triple_when.
  - intros Hv. apply triple_call; intros tr x Htr _;
      (eapply since_snoc; [exact Htr|]); intros evs [Hevs [pre' ->]];
      (apply only_after_snoc_marker; [by exists pre', ans | done]).
  - intros _ tr Htr. eapply since_mono; [exact Htr|]. by intros evs [? _].
Qed.

Lemma installation_steps_grub a0 t0 dc lc de t m :
  a0 !! "packages" ≠ Some (VStr "grub") →
  triple a0
    (since t0 (only_after (add_additional_packages (VStr "grub")) (answered has_uefi)))
    (installation_steps w dc lc de t m)
    (λ _, since t0
       (only_after (add_additional_packages (VStr "grub")) (answered has_uefi)))
    (λ _, since t0
       (only_after (add_additional_packages (VStr "grub")) (answered has_uefi))).
Proof.
  intros Hp.
  assert (default (VList []) (a0 !! "packages") ≠ VStr "grub") as Hp'.
  { destruct (a0 !! "packages"); simpl; congruence. }
  unfold installation_steps.
  walk_until ltac:(fun m => lazymatch m with context [has_uefi] => fail | _ => idtac end)
    gate_side.
  apply (triple_bind _ _ _ _ (λ _, since t0
           (only_after (add_additional_packages (VStr "grub")) (answered has_uefi))));
    [|intros ?; walk gate_side].
  destruct (py_eq _ _); [|by apply triple_ret].
  apply (triple_bind _ _ _ _ (λ ans, since t0 (λ evs,
           only_after (add_additional_packages (VStr "grub")) (answered has_uefi) evs ∧
           ∃ pre', evs = pre' ++ [(has_uefi, Returned ans)]))).
  { apply triple_call; [|gate_side].
    intros tr ans Htr _. eapply since_snoc; [exact Htr|]. intros evs Hevs.
    split; [by apply only_after_snoc_other | by exists evs]. }
  intros ans. apply triple_when.
  - intros Hv. apply triple_call; intros tr x Htr _;
      (eapply since_snoc; [exact Htr|]); intros evs [Hevs [pre' ->]];
      (apply only_after_snoc_marker; [by exists pre', ans | done]).
  - intros _ tr Htr. eapply since_mono; [exact Htr|]. by intros evs [? _].
Qed.

Lemma installation_steps_yes a0 t0 dc lc de t m :
  triple a0 (since t0 (only_after drop_to_shell answered_yes))
    (installation_steps w dc lc de t m)
    (λ _, since t0 (only_after drop_to_shell answered_yes))
    (λ _, since t0 (only_after drop_to_shell answered_yes)).
Proof.
  unfold installation_steps.
  walk_until ltac:(at_call Menu_run) gate_side.
  apply (triple_bind _ _ _ _ (λ picked, since t0 (λ evs,
           only_after drop_to_shell answered_yes evs ∧
           ∃ pre', evs = pre' ++ [(Menu_run, Returned picked)]))).
  { apply triple_call; [|gate_side].
    intros tr ans Htr _. eapply since_snoc; [exact Htr|]. intros evs Hevs.
    split; [by apply only_after_snoc_other | by exists evs]. }
  intros picked.
  apply (triple_bind _ _ _ _ (λ affirm, since t0 (λ evs,
           only_after drop_to_shell answered_yes evs ∧
           ∃ pre', evs = pre' ++ [(Menu_run, Returned picked); (Menu_yes, Returned affirm)]))).
  { apply triple_call.
    - intros tr ans Htr _. eapply since_snoc; [exact Htr|]. intros evs [Hevs [pre' ->]].
      split; [by apply only_after_snoc_other|]. exists pre'. by rewrite <- app_assoc.
    - intros tr e Htr _. eapply since_snoc; [exact Htr|]. intros evs [Hevs _].
      by apply only_after_snoc_other. }
  intros affirm. destruct (py_eq picked affirm) eqn:Hyes.
  - apply (triple_try _ _ _ _ _
             (λ _, since t0 (only_after drop_to_shell answered_yes))).
    + apply triple_call; intros tr x Htr _;
        (eapply since_snoc; [exact Htr|]); intros evs [Hevs [pre' ->]];
        (apply only_after_snoc_marker; [by exists pre', picked, affirm | done]).
    + intros e tr Htr. by destruct (is_Exception e).
  - apply triple_ret. intros tr Htr. eapply since_mono; [exact Htr|].
    by intros evs [? _].
Qed.

End Gates.

(** X8.  The screen reader is enabled only on the library's word:
    [enable_espeakup] is only ever called right after
    [accessibility_tools_in_use] returned a true value. *)
Theorem espeakup_only_with_accessibility_tools w mp st :
  ∀ pre x post,
    installation_events w mp st = pre ++ (enable_espeakup, x) :: post →
    ∃ pre' v, pre = pre' ++ [(accessibility_tools_in_use, Returned v)] ∧
              truthy v = true.
Proof.
  apply (installation_events_since w (arguments st) mp st
           (only_after enable_espeakup (answered accessibility_tools_in_use)));
    [|done|apply only_after_nil].
  apply perform_installation_uniform.
  - intros. apply only_after_housekeeping; [by intros [] | done | done].
  - intros. apply installation_steps_espeakup.
Qed.

(** X9.  Unless the configured 'packages' is the string 'grub' itself, the
    package 'grub' is only ever added right after [SysInfo.has_uefi]
    returned a true value. *)
Theorem grub_only_on_uefi w mp st :
  arguments st !! "packages" ≠ Some (VStr "grub") →
  ∀ pre x post,
    installation_events w mp st
      = pre ++ (add_additional_packages (VStr "grub"), x) :: post →
    ∃ pre' v, pre = pre' ++ [(has_uefi, Returned v)] ∧ truthy v = true.
Proof.
  intros Hp.
  apply (installation_events_since w (arguments st) mp st
           (only_after (add_additional_packages (VStr "grub")) (answered has_uefi)));
    [|done|apply only_after_nil].
  apply perform_installation_uniform.
  - intros. apply only_after_housekeeping; [by intros [] | done | done].
  - intros. by apply installation_steps_grub.
Qed.

(** X10.  The chroot shell is opened only on the user's word:
    [drop_to_shell] is only ever called right after the menu's [run()]
    returned a choice and [Menu.yes()] a value equal to it. *)
Theorem chroot_shell_needs_a_yes w mp st :
  ∀ pre x post,
    installation_events w mp st = pre ++ (drop_to_shell, x) :: post →
    ∃ pre' choice yes,
      pre = pre' ++ [(Menu_run, Returned choice); (Menu_yes, Returned yes)] ∧
      py_eq choice yes = true.
Proof.
  apply (installation_events_since w (arguments st) mp st
           (only_after drop_to_shell answered_yes));
    [|done|apply only_after_nil].
  apply perform_installation_uniform.
  - intros. apply only_after_housekeeping; [by intros [] | done | done].
  - intros. apply installation_steps_yes.
Qed.

(** ** What the installation depends on *)

Section SameOutcome.

Variable w : World.

Lemma same_outcome_ret {A} (a : A) : same_outcome (mret a : M A).
Proof. intros st1 st2 Htr Ha. done. Qed.

Lemma same_outcome_bind {A B} (m : M A) (f : A → M B) :
  same_outcome m → (∀ a, same_outcome (f a)) → same_outcome (m ≫= f).
Proof.
  intros Hm Hf st1 st2 Htr Ha. destruct (Hm st1 st2 Htr Ha) as (Hr & Htr' & Ha').
  unfold mbind, M_bind, bind.
  destruct (m st1) as [st1' r1], (m st2) as [st2' r2]; simpl in *. subst r2.
  destruct r1 as [a|e]; [by apply Hf | done].
Qed.

Lemma same_outcome_lift {A} (r : Result A) : same_outcome (lift r).
Proof. intros st1 st2 Htr Ha. done. Qed.

Lemma same_outcome_get k d : k ∈ read_keys → same_outcome (args_get k d).
Proof.
  intros Hk st1 st2 Htr Ha. unfold args_get. simpl. by rewrite (Ha k Hk).
Qed.

Lemma same_outcome_index k : k ∈ read_keys → same_outcome (args_index k).
Proof.
  intros Hk st1 st2 Htr Ha. unfold args_index. rewrite (Ha k Hk).
  by destruct (arguments st2 !! k).
Qed.

Lemma same_outcome_call c : same_outcome (call w c).
Proof.
  intros st1 st2 Htr Ha. unfold call. rewrite Htr.
  by destruct (reply w (trace st2) c); simpl; rewrite Htr.
Qed.

Lemma same_outcome_when b m : same_outcome m → same_outcome (when b m).
Proof.
  intros Hm. unfold when. destruct b; [|apply same_outcome_ret].
  apply same_outcome_bind; [done|]. intros ?. apply same_outcome_ret.
Qed.

Lemma same_outcome_for_each {A} (l : list A) (body : A → M unit) :
  (∀ x, same_outcome (body x)) → same_outcome (for_each l body).
Proof.
  intros Hbody. induction l as [|x l IH]; simpl; [apply same_outcome_ret|].
  apply same_outcome_bind; [apply Hbody | by intros ?].
Qed.

Lemma same_outcome_try m : same_outcome m → same_outcome (try_except_Exception_pass m).
Proof.
  intros Hm st1 st2 Htr Ha. destruct (Hm st1 st2 Htr Ha) as (Hr & Htr' & Ha').
  unfold try_except_Exception_pass.
  destruct (m st1) as [st1' r1], (m st2) as [st2' r2]; simpl in *. subst r2.
  destruct r1 as [a|e]; [done|]. by destruct (is_Exception e).
Qed.

Lemma same_outcome_guarded body : same_outcome body → same_outcome (guarded_by_exit w body).
Proof.
  intros Hm st1 st2 Htr Ha. destruct (Hm st1 st2 Htr Ha) as (Hr & Htr' & Ha').
  unfold guarded_by_exit.
  destruct (body st1) as [st1' r1], (body st2) as [st2' r2]; simpl in *. subst r2.
  destruct r1 as [[]|e].
  - apply (same_outcome_bind (call w (Installer_exit None)) (λ _, mret tt));
      [apply same_outcome_call | intros; apply same_outcome_ret | done | done].
  - destruct (same_outcome_call (Installer_exit (Some e)) st1' st2' Htr' Ha')
      as (Hr & Htr'' & Ha'').
    destruct (call w _ st1') as [st1'' r1], (call w _ st2') as [st2'' r2];
      simpl in *. subst r2.
    destruct r1 as [v|e']; [by destruct (truthy v) | done].
Qed.

Lemma same_outcome_with new body :
  same_outcome body → same_outcome (with_Installer w new body).
Proof.
  intros Hbody. unfold with_Installer.
  apply same_outcome_bind; [apply same_outcome_call | intros ?].
  apply same_outcome_bind; [apply same_outcome_call | intros ?].
  by apply same_outcome_guarded.
Qed.

Ltac key_is_read :=
  unfold read_keys;
  repeat first [apply list_elem_of_here | apply list_elem_of_further].

Ltac same_outcome_step :=
  lazymatch goal with
  | |- same_outcome (mret _) => apply same_outcome_ret
  | |- same_outcome (_ ≫= _) => apply same_outcome_bind; [|intros ?]
  | |- same_outcome (args_get _ _) => apply same_outcome_get; key_is_read
  | |- same_outcome (args_index _) => apply same_outcome_index; key_is_read
  | |- same_outcome (lift _) => apply same_outcome_lift
  | |- same_outcome (call _ _) => apply same_outcome_call
  | |- same_outcome (when _ _) => apply same_outcome_when
  | |- same_outcome (if ?b then _ else _) => destruct b
  | |- same_outcome (for_each _ _) => apply same_outcome_for_each; intros ?
  | |- same_outcome (try_except_Exception_pass _) => apply same_outcome_try
  | |- same_outcome (with_Installer _ _ _) => apply same_outcome_with
  end.

Lemma installation_steps_same_outcome dc lc de t m :
  same_outcome (installation_steps w dc lc de t m).
Proof. unfold installation_steps. repeat same_outcome_step. Qed.

Lemma perform_installation_same_outcome mp : same_outcome (perform_installation w mp).
Proof.
  unfold perform_installation. repeat same_outcome_step.
  apply installation_steps_same_outcome.
Qed.

End SameOutcome.

(** X11.  The script reads seventeen entries of the configuration bag and
    nothing else in it.  With a library whose answers are determined by the
    calls made so far: from two states with the same trace whose bags agree
    on these entries, [perform_installation] issues the same calls, gets
    the same answers and ends the same way.  Entries the menu offers but
    the function never reads ('parallel downloads', 'archinstall-language',
    ...) make no difference to what the script does, nor does
    [archinstall.storage]. *)
Theorem installation_depends_on_read_keys w mp st1 st2 :
  trace st1 = trace st2 →
  (∀ k, k ∈ ["disk_config"; "additional-repositories"; "locale_config";
             "disk_encryption"; "kernels"; "mirror_config"; "hostname"; "swap";
             "bootloader"; "!users"; "packages"; "timezone"; "ntp";
             "!root-password"; "services"; "custom-commands"; "silent"] →
        arguments st1 !! k = arguments st2 !! k) →
  (perform_installation w mp st1).2 = (perform_installation w mp st2).2 ∧
  trace (perform_installation w mp st1).1 = trace (perform_installation w mp st2).1.
Proof.
  intros Htr Ha.
  destruct (perform_installation_same_outcome w mp st1 st2 Htr Ha) as (? & ? & _).
  done.
Qed.

(** ** The [with] statement *)

Lemma exits_snoc_other evs c r :
  match c with Installer_exit _ => False | _ => True end →
  exits (evs ++ [(c, r)]) = exits evs.
Proof. intros H. apply observe_snoc_None. by destruct c. Qed.

Lemma entered_snoc evs ev : entered evs → entered (evs ++ [ev]).
Proof. intros [v Hv]. exists v. apply elem_of_app. by left. Qed.

Lemma before_body_snoc evs c r :
  match c with Installer_exit _ | Installer_enter => False | _ => True end →
  before_body evs → before_body (evs ++ [(c, r)]).
Proof.
  intros Hc [Hx Hn]. split.
  - rewrite exits_snoc_other; [done | by destruct c].
  - intros [v Hv]. apply elem_of_app in Hv as [Hv|Hv]; [by apply Hn; exists v|].
    apply list_elem_of_singleton in Hv. injection Hv as <- _. done.
Qed.

Lemma in_body_snoc evs c r :
  match c with Installer_exit _ => False | _ => True end →
  in_body evs → in_body (evs ++ [(c, r)]).
Proof.
  intros Hc [Hx Hin]. split; [by rewrite exits_snoc_other | by apply entered_snoc].
Qed.

Lemma after_body_snoc evs c r :
  match c with Installer_exit _ => False | _ => True end →
  after_body evs → after_body (evs ++ [(c, r)]).
Proof.
  intros Hc [Hx Hin]. split; [by rewrite exits_snoc_other | by apply entered_snoc].
Qed.

Lemma in_body_exit evs exc r : in_body evs → after_body (evs ++ [(Installer_exit exc, r)]).
Proof.
  intros [Hx Hin]. split; [|by apply entered_snoc].
  exists exc. unfold exits. erewrite observe_snoc_Some; [|done].
  fold exits. by rewrite Hx.
Qed.

Section With.

Variable w : World.

Ltac with_side :=
  try done; try assumption; intros; cbv beta in *;
  first
    [ eapply since_snoc;
      [eassumption
      | intros;
        first [ by apply in_body_snoc
              | by apply after_body_snoc
              | by apply before_body_snoc
              | by right; apply after_body_snoc
              | by left; apply before_body_snoc ] ]
    | eapply since_mono; [eassumption | intros; by left] ].

Lemma installation_steps_in_body a0 t0 dc lc de t m :
  triple a0 (since t0 in_body) (installation_steps w dc lc de t m)
    (λ _, since t0 in_body) (λ _, since t0 in_body).
Proof. unfold installation_steps. walk with_side. Qed.

Lemma perform_installation_with a0 t0 mp :
  triple a0 (since t0 before_body) (perform_installation w mp)
    (λ _, since t0 after_body)
    (λ _, since t0 (λ evs, before_body evs ∨ after_body evs)).
Proof.
  unfold perform_installation. walk with_side.
  apply (triple_bind _ _ _ _ (λ _, since t0 after_body));
    [|intros ?; walk with_side].
  apply (triple_with w _ _ (since t0 before_body) (since t0 in_body)).
  - apply triple_call; with_side.
  - apply triple_call.
    + intros tr ans Htr _. eapply since_snoc; [exact Htr|]. intros evs [Hx Hn].
      split; [by rewrite exits_snoc_other|]. exists ans.
      apply elem_of_app. right. apply list_elem_of_here.
    + intros tr err Htr _. eapply since_snoc; [exact Htr|]. intros evs [Hx Hn].
      left. split; [by rewrite exits_snoc_other|].
      intros [old Hv]. apply elem_of_app in Hv as [Hv|Hv]; [by apply Hn; exists old|].
      by apply list_elem_of_singleton in Hv.
  - eapply triple_guarded; [apply installation_steps_in_body | |].
    + intros tr Htr. destruct (reply w tr _);
        (eapply since_snoc; [exact Htr|]); intros evs Hevs;
        [|right]; by apply in_body_exit.
    + intros tr e Htr. destruct (reply w tr _) as [x|x]; [destruct (truthy x)|];
        (eapply since_snoc; [exact Htr|]); intros evs Hevs;
        [|right|right]; by apply in_body_exit.
Qed.

End With.

(** X12.  The [with] statement is always closed, and only once: a run in
    which [Installer.__enter__] returned has called [__exit__] exactly once,
    whether the body completed, raised, or was cut short by a library
    failure; a run that never entered the body has not called [__exit__]. *)
Theorem exit_is_called_once_iff_entered w mp st :
  (entered (installation_events w mp st) →
   ∃ exc, exits (installation_events w mp st) = [exc]) ∧
  (¬ entered (installation_events w mp st) →
   exits (installation_events w mp st) = []).
Proof.
  assert (before_body (installation_events w mp st) ∨
          after_body (installation_events w mp st)) as H.
  { unfold installation_events.
    destruct (perform_installation_with w (arguments st) (trace st) mp st eq_refl)
      as [_ Hpost].
    { apply since_refl. split; [done|]. intros [v Hv]. by apply elem_of_nil in Hv. }
    destruct (perform_installation w mp st).2;
      destruct Hpost as (evs & -> & Hevs); rewrite drop_app_length; auto. }
  destruct H as [[Hx Hn] | [Hx Hin]]; split; done.
Qed.

(** ** Configurations the installation cannot use *)

(** X13.  Without a disk layout or a locale nothing is built: if
    'disk_config' or 'locale_config' is missing, [perform_installation]
    raises after its first [info] call, before any [Installer] exists; and
    if the menu leaves no 'disk_config', the script ends with
    [KeyError('disk_config')] right after the questions, without a single
    further library call. *)
Theorem nothing_is_built_without_layout_or_locale w :
  (∀ mp st,
     arguments st !! "disk_config" = None ∨ arguments st !! "locale_config" = None →
     installation_calls w mp st = [info "Starting installation"] ∧
     ∃ e, (perform_installation w mp st).2 = Exc e) ∧
  (∀ st st1,
     ask_user_questions w st = (st1, Ok tt) →
     arguments st1 !! "disk_config" = None →
     script w st = (st1, Exc (KeyError "disk_config"))).
Proof.
  split.
  - intros mp st Hmissing.
    unfold installation_calls, installation_events, perform_installation,
      mbind, M_bind, bind, call, args_index, args_get, lift.
    destruct (reply w (trace st) (info "Starting installation")) as [v|e]; simpl.
    2: { rewrite drop_app_length. eauto. }
    destruct (arguments st !! "disk_config") as [dc|]; simpl.
    2: { rewrite drop_app_length. eauto. }
    destruct (py_in "testing" _) as [t|e]; simpl.
    2: { rewrite drop_app_length. eauto. }
    destruct (py_in "multilib" _) as [m|e]; simpl.
    2: { rewrite drop_app_length. eauto. }
    destruct Hmissing as [?|Hlc]; [done|]. rewrite Hlc. simpl.
    rewrite drop_app_length. eauto.
  - intros st st1 Hask Hdc. rewrite script_split, Hask.
    unfold prepare_and_install, mbind, M_bind, bind, args_index.
    by rewrite Hdc.
Qed.

Section Needs.

Variable w : World.
Hypothesis Hexit : exit_hands_back w.

Ltac needs_side :=
  try done; intros; cbv beta in *;
  try (repeat split;
       lazymatch goal with
       | H : get_config_type ?dc = Ok _ |- ∃ c, ?dc = VDiskLayout c =>
           destruct dc; try discriminate; by eexists
       | H : get_kb_layout ?lc = Ok _ |- ∃ l, ?lc = VLocale l =>
           destruct lc; try discriminate; by eexists
       | H : _ !! "bootloader" = Some ?b |- ∃ b, _ !! "bootloader" = Some b =>
           by exists b
       | H : py_iter _ = Ok ?items |- ∃ items, py_iter _ = Ok items =>
           by exists items
       end).

Lemma installation_steps_needs a0 dc lc de t m :
  triple a0 (λ _, True) (installation_steps w dc lc de t m)
    (λ _ _, (∃ c, dc = VDiskLayout c) ∧ (∃ l, lc = VLocale l) ∧
            (∃ b, a0 !! "bootloader" = Some b) ∧
            (∃ items, py_iter (default (VList []) (a0 !! "!users")) = Ok items))
    (λ _ _, True).
Proof. unfold installation_steps. walk needs_side. Qed.

Lemma perform_installation_needs a0 mp :
  triple a0 (λ _, True) (perform_installation w mp)
    (λ _ _, well_formed a0) (λ _ _, True).
Proof.
  unfold perform_installation. walk ltac:(done).
  apply (triple_bind _ _ _ _ (λ _ _, well_formed a0));
    [|intros ?; walk ltac:(done)].
  apply (triple_with w _ _ (λ _, True) (λ _, True)); try by apply triple_call.
  apply (triple_guarded_completed w _ _ _ _ _ Hexit (installation_steps_needs _ _ _ _ _ _)).
  intros tr r ((c & ->) & (l & ->) & Hb & Hitems). unfold well_formed.
  repeat split; eauto.
Qed.

End Needs.

(** X14.  Where the library's [__exit__] hands exceptions back, a run of
    [perform_installation] completes only on a configuration that has a
    disk layout under 'disk_config', a locale under 'locale_config' and an
    entry 'bootloader', and whose 'additional-repositories' and '!users',
    when present, can be searched and iterated: with a missing bootloader
    or with '!users' set to [None] every run ends with an exception. *)
Theorem completion_needs_a_well_formed_configuration w mp st st' :
  exit_hands_back w →
  perform_installation w mp st = (st', Ok tt) →
  (∃ c, arguments st !! "disk_config" = Some (VDiskLayout c)) ∧
  (∃ lc, arguments st !! "locale_config" = Some (VLocale lc)) ∧
  (∃ b, arguments st !! "bootloader" = Some b) ∧
  (∃ testing,
     py_in "testing" (default (VList []) (arguments st !! "additional-repositories"))
       = Ok testing) ∧
  (∃ items, py_iter (default (VList []) (arguments st !! "!users")) = Ok items) ∧
  arguments st !! "!users" ≠ Some VNone.
Proof.
  intros Hexit Hrun.
  destruct (triple_run _ _ _ _ _ _ _ _
              (perform_installation_needs w Hexit (arguments st) mp)
              eq_refl I Hrun) as [_ (Hdc & Hlc & Hb & Ht & Hitems)].
  repeat split; try done.
  intros Hnone. destruct Hitems as [items Hitems]. by rewrite Hnone in Hitems.
Qed.

(** ** The menu is run last *)

Ltac in_the_list :=
  solve [repeat first [apply list_elem_of_here | apply list_elem_of_further]].

Section Menu.

Variable w : World.

Lemma issue_prefix cs st :
  ∃ evs, trace (issue w cs st).1 = trace st ++ evs ∧ evs.*1 `prefix_of` cs.
Proof.
  revert st. induction cs as [|c cs IH]; intros st; simpl.
  - exists []. by rewrite app_nil_r.
  - unfold mbind, M_bind, bind, call_menu.
    destruct (reply w (trace st) c) as [v|e] eqn:Hr; simpl.
    + match goal with |- context [issue w cs ?s] => destruct (IH s) as (evs & Htr & H) end.
      exists ((c, Returned v) :: evs). split.
      * rewrite Htr. simpl. by rewrite <- app_assoc.
      * simpl. by apply prefix_cons.
    + exists [(c, Raised e)]. split; [done|]. simpl. apply prefix_cons, prefix_nil.
Qed.

Lemma question_events_spec st :
  (question_events w st).*1 `prefix_of` menu_calls ∧
  match (ask_user_questions w st).2 with
  | Ok _ => (question_events w st).*1 = menu_calls ∧
            Forall returned (question_events w st)
  | Exc e => ∃ pre c, question_events w st = pre ++ [(c, Raised e)] ∧ Forall returned pre
  end.
Proof.
  unfold question_events. rewrite ask_user_questions_issue.
  destruct (issue_prefix menu_calls st) as (evs & Htr & Hpre).
  destruct (issue_spec w menu_calls st) as (evs' & Htr' & H).
  rewrite Htr in Htr'. apply app_inv_head in Htr'. subst evs'.
  rewrite Htr, drop_app_length. split; [done|].
  destruct (issue w menu_calls st).2; [done|].
  destruct H as (pre & c & ? & ? & _). by exists pre, c.
Qed.

Lemma last_call_unique {A} (l1 l2 init k : list A) x :
  x ∉ init → init ++ [x] = l1 ++ x :: l2 ++ k → l1 = init ∧ l2 = [] ∧ k = [].
Proof.
  revert l1. induction init as [|y init IH]; intros l1 Hx Heq.
  - destruct l1 as [|z l1]; simpl in Heq.
    + injection Heq as Heq. symmetry in Heq. by apply app_eq_nil in Heq as [-> ->].
    + injection Heq as -> Heq. by destruct l1.
  - destruct l1 as [|z l1]; simpl in Heq; injection Heq as -> Heq.
    + destruct Hx. apply list_elem_of_here.
    + destruct (IH l1) as (-> & -> & ->); [|done|done].
      intros Hin. apply Hx. by apply list_elem_of_further.
Qed.

End Menu.

(** X15.  [GlobalMenu.run] closes the question phase: it is called only
    after the menu object was built and all eighteen entries were enabled,
    each of these calls having returned, and nothing is called after it.
    Exactly three entries are enabled as mandatory: 'disk_config',
    '!root-password' and '!users'. *)
Theorem menu_runs_last_with_three_mandatory_entries w st :
  (∀ pre x post,
     question_events w st = pre ++ (GlobalMenu_run, x) :: post →
     post = [] ∧ Forall returned pre ∧
     pre.*1 = GlobalMenu_new ::
                ((λ entry, GlobalMenu_enable entry.1 entry.2) <$> menu_entries)) ∧
  (∀ selector, GlobalMenu_enable selector true ∈ (question_events w st).*1 →
     selector ∈ ["disk_config"; "!root-password"; "!users"]) ∧
  ((ask_user_questions w st).2 = Ok tt →
   ∀ selector, selector ∈ ["disk_config"; "!root-password"; "!users"] →
     GlobalMenu_enable selector true ∈ (question_events w st).*1).
Proof.
  destruct (question_events_spec w st) as [Hprefix Hshape].
  split; [|split].
  - intros pre x post Heq.
    destruct Hprefix as [k Hk]. rewrite Heq, fmap_app, fmap_cons in Hk. simpl in Hk.
    rewrite <- app_assoc in Hk. simpl in Hk.
    apply (last_call_unique _ _
             (GlobalMenu_new ::
                ((λ entry, GlobalMenu_enable entry.1 entry.2) <$> menu_entries)))
      in Hk as (Hpre & Hpost & _).
    2: { refine (bool_decide_unpack _ _). by vm_compute. }
    apply fmap_nil_inv in Hpost. subst post. split; [done|]. split; [|done].
    destruct (ask_user_questions w st).2 as [[]|e].
    + destruct Hshape as [_ Hret]. rewrite Heq in Hret.
      by apply Forall_app in Hret as [? _].
    + destruct Hshape as (pre0 & c & Heq0 & Hret). rewrite Heq in Heq0.
      by apply app_inj_tail in Heq0 as [-> _].
  - intros selector Hin.
    assert (GlobalMenu_enable selector true ∈ menu_calls) as Hcall
      by (eapply elem_of_prefix; [exact Hin | exact Hprefix]).
    unfold menu_calls, menu_entries in Hcall. simpl in Hcall.
    repeat (apply elem_of_cons in Hcall as [Hcall|Hcall];
            [try discriminate; injection Hcall as ->; in_the_list|]).
    by apply elem_of_nil in Hcall.
  - intros Hok selector Hin. rewrite Hok in Hshape. destruct Hshape as [-> _].
    unfold menu_calls, menu_entries. simpl.
    repeat (apply elem_of_cons in Hin as [->|Hin]; [in_the_list|]).
    by apply elem_of_nil in Hin.
Qed.

(** ** The module's top level *)

(** X16.  The disk handler and the installer work on the same
    configuration: after the questions the top level builds the
    [FilesystemHandler] from the bag's 'disk_config' and 'disk_encryption'
    ([None] when absent), and the [Installer] from these same two entries,
    for the mount point [archinstall.storage] holds under 'MOUNT_POINT',
    [Path('/mnt')] when it holds none. *)
Theorem handler_and_installer_share_the_configuration w st :
  (∀ dc de, FilesystemHandler_new dc de ∈ top_level_calls w st →
     arguments st !! "disk_config" = Some dc ∧
     de = default VNone (arguments st !! "disk_encryption")) ∧
  (∀ m dc de kernels, Installer_new m dc de kernels ∈ top_level_calls w st →
     m = default (VPath "/mnt") (storage st !! "MOUNT_POINT") ∧
     arguments st !! "disk_config" = Some dc ∧
     de = default VNone (arguments st !! "disk_encryption")).
Proof.
  assert (∀ c, c ∈ top_level_calls w st →
            c = FilesystemHandler_new
                  (default VNone (arguments st !! "disk_config"))
                  (default VNone (arguments st !! "disk_encryption")) ∧
            is_Some (arguments st !! "disk_config") ∨
            c = perform_filesystem_operations ∨
            called_for (arguments st)
              (default (VPath "/mnt") (storage st !! "MOUNT_POINT")) c) as Hcalls.
  { unfold top_level_calls, prepare_and_install, mbind, M_bind, bind, args_index,
      args_get, storage_get, call.
    destruct (arguments st !! "disk_config") as [dc|] eqn:Hdc; simpl.
    2: { rewrite drop_all. intros c Hc. by apply elem_of_nil in Hc. }
    destruct (reply w (trace st) _) as [v1|e1]; simpl.
    2: { rewrite drop_app_length. intros c Hc. apply list_elem_of_singleton in Hc.
         left. by split. }
    destruct (reply w (trace st ++ _) perform_filesystem_operations) as [v2|e2]; simpl.
    2: { rewrite <- app_assoc, drop_app_length. intros c Hc. simpl in Hc.
         apply elem_of_cons in Hc as [->|Hc]; [left; by split|].
         apply list_elem_of_singleton in Hc. by right; left. }
    match goal with |- context [perform_installation w ?mp ?s] =>
      destruct (perform_installation_calls w mp s) as (evs & -> & Hall)
    end.
    simpl. rewrite <- !app_assoc, drop_app_length. intros c Hc. simpl in Hc.
    apply elem_of_cons in Hc as [->|Hc]; [left; by split|].
    apply elem_of_cons in Hc as [->|Hc]; [by right; left|].
    right. right. apply list_elem_of_fmap in Hc as (ev & -> & Hev).
    unfold all_called_for in Hall. rewrite Forall_forall in Hall. by apply Hall. }
  split.
  - intros dc de Hc. destruct (Hcalls _ Hc) as [[[= -> ->] [x Hx]] | [? | []]];
      [|done]. by rewrite Hx.
  - intros m dc de kernels Hc.
    destruct (Hcalls _ Hc) as [[? _] | [? | (-> & ? & ? & _)]]; done.
Qed.

(** ** Typed configurations *)

Lemma triple_for_each_elem {A} a0 (T : list Event → Prop) (body : A → M unit) E l :
  (∀ x, x ∈ l → triple a0 T (body x) (λ _, T) E) →
  triple a0 T (for_each l body) (λ _, T) E.
Proof.
  induction l as [|x l IH]; intros Hbody; simpl.
  - by apply triple_ret.
  - eapply triple_bind; [apply Hbody, list_elem_of_here|]. intros ?.
    apply IH. intros y Hy. by apply Hbody, list_elem_of_further.
Qed.

Lemma some_call_raised_snoc evs ev :
  some_call_raised evs → some_call_raised (evs ++ [ev]).
Proof. intros (c & e & H). exists c, e. apply elem_of_app. by left. Qed.

Lemma some_call_raised_here evs c e : some_call_raised (evs ++ [(c, Raised e)]).
Proof. exists c, e. apply elem_of_app. right. apply list_elem_of_here. Qed.

Section Typed.

Variable w : World.

Ltac untyped :=
  exfalso;
  match goal with
  | Hk : ?a !! ?k = None, Hty : ∃ x, ?a !! ?k = Some _ |- _ =>
      destruct Hty; congruence
  | Hk : ?a !! ?k = None, Ht : truthy (default VNone (?a !! ?k)) = true |- _ =>
      rewrite Hk in Ht; discriminate
  | H : _ = Exc _ |- _ => simpl in H; discriminate
  | H : ?f (default ?d (?a !! ?k)) = Exc _, Hty : ∀ v, ?a !! ?k = Some v → _ |- _ =>
      let Hk := fresh "Hk" in
      destruct (a !! k) eqn:Hk in *;
      [ specialize (Hty _ eq_refl);
        repeat match goal with
          | H' : _ ∨ _ |- _ => destruct H'
          | H' : ∃ _, _ |- _ => destruct H'
          end;
        subst; simpl in *; try discriminate;
        match goal with
        | H' : match ?l with _ => _ end = Exc _ |- _ => destruct l; simpl in *; discriminate
        end
      | simpl in *; discriminate ]
  end.

Ltac typed_side :=
  try done; try assumption; intros; cbv beta in *;
  first
    [ eapply since_snoc;
      [eassumption
      | intros; first [exact I | apply some_call_raised_here
                      | by apply some_call_raised_snoc] ]
    | untyped ].

Ltac at_loop_or_try m :=
  lazymatch m with
  | for_each _ _ => fail
  | try_except_Exception_pass _ => fail
  | _ => idtac
  end.

Lemma installation_steps_typed a0 t0 c lc t m :
  typed a0 →
  triple a0 (since t0 (λ _, True))
    (installation_steps w (VDiskLayout c) (VLocale lc)
       (default VNone (a0 !! "disk_encryption")) t m)
    (λ _, since t0 (λ _, True)) (λ _, since t0 some_call_raised).
Proof.
  intros (Hdc & Hlc & Hb & Hrepos & Henc & Hmirror & Husers & Hpackages & Hroot).
  unfold installation_steps.
  walk_until at_loop_or_try typed_side.
  apply (triple_bind _ _ _ _ (λ _, since t0 (λ _, True))).
  { apply triple_for_each_elem. intros user Huser.
    assert (∃ u, user = VUser u) as [u ->].
    { destruct (a0 !! "!users") as [users|] eqn:Hk; simpl in *.
      - destruct (Husers _ eq_refl) as [l ->]. simplify_eq/=.
        apply list_elem_of_fmap in Huser as (u & -> & _). by exists u.
      - simplify_eq/=. by apply elem_of_nil in Huser. }
    walk typed_side. }
  intros ?. walk_until at_loop_or_try typed_side.
  apply (triple_try _ _ _ _ _ (λ _, since t0 some_call_raised)).
  - apply triple_call; typed_side.
  - intros e tr Htr. destruct (is_Exception e); [|done].
    eapply since_mono; [exact Htr | done].
Qed.

Lemma perform_installation_typed a0 t0 mp :
  typed a0 →
  triple a0 (since t0 (λ _, True)) (perform_installation w mp)
    (λ _, since t0 (λ _, True)) (λ _, since t0 some_call_raised).
Proof.
  intros Htyped.
  pose proof Htyped as
    (Hdc & Hlc & Hb & Hrepos & Henc & Hmirror & Husers & Hpackages & Hroot).
  unfold perform_installation. walk typed_side.
  destruct Hdc as [c Hdc], Hlc as [lc Hlc].
  apply (triple_bind _ _ _ _ (λ _, since t0 (λ _, True)));
    [|intros ?; walk typed_side].
  apply (triple_with w _ _ (since t0 (λ _, True)) (since t0 (λ _, True)));
    try (apply triple_call; typed_side).
  simplify_eq. eapply triple_guarded; [by apply installation_steps_typed | |].
  - intros tr Htr. destruct (reply w tr _); typed_side.
  - intros tr e Htr. destruct (reply w tr _) as [x|x]; [destruct (truthy x)|];
      typed_side.
Qed.

End Typed.

(** X17.  On a typed configuration the script itself raises nothing: a run
    of [perform_installation] either completes or some library call of the
    run raised.  Typed means: 'disk_config', 'locale_config' and
    'bootloader' are there, the first two of their class, and
    'additional-repositories', 'disk_encryption', 'mirror_config', '!users',
    'packages' and '!root-password' are absent or of their class ([None]
    allowed except for the repositories and the users). *)
Theorem typed_configuration_fails_only_with_the_library w mp st :
  typed (arguments st) →
  (perform_installation w mp st).2 = Ok tt ∨
  ∃ c e, (c, Raised e) ∈ installation_events w mp st.
Proof.
  intros Htyped.
  destruct (perform_installation_typed w (arguments st) (trace st) mp Htyped st eq_refl)
    as [_ Hpost]; [by apply since_refl|].
  unfold installation_events. destruct (perform_installation w mp st).2 as [[]|e].
  - by left.
  - right. destruct Hpost as (evs & -> & Hevs). by rewrite drop_app_length.
Qed.

(** ** The backbone of a run *)




Section Backbone.

Variable w : World.
Hypothesis Hexit : exit_hands_back w.





End Backbone.


(** ** Concrete runs *)

(** The theorems above at work on sample libraries and configurations. *)

Lemma ask_user_questions_enables_witness :
  ask_user_questions compliant fresh
    = ((ask_user_questions compliant fresh).1, Ok tt) ∧
  ∃ evs, trace (ask_user_questions compliant fresh).1 = trace fresh ++ evs ∧
    enabled_selectors evs = [
      "archinstall-language"; "mirror_config"; "locale_config"; "disk_config";
      "disk_encryption"; "bootloader"; "hostname"; "!root-password"; "!users";
      "packages"; "parallel downloads"; "timezone"; "ntp";
      "additional-repositories"; "__separator__"; "install"; "save_config";
      "abort"] ∧
    (∀ s, s ∈ enabled_selectors evs ↔
          s ∈ spec_menu_entries ∨
          s ∈ ["archinstall-language"; "__separator__"; "install";
               "save_config"; "abort"]).
Proof.
  assert (ask_user_questions compliant fresh
            = ((ask_user_questions compliant fresh).1, Ok tt)) as Hrun
    by (vm_compute; reflexivity).
  split; [exact Hrun|].
  exact (ask_user_questions_enables compliant fresh _ Hrun).
Defined.

(** The claim that no entry outside the specification's list is enabled
    fails: the language entry is enabled and is not in that list. *)
Lemma language_entry_enabled_outside_spec_list :
  (ask_user_questions compliant fresh).2 = Ok tt ∧
  "archinstall-language"
    ∈ enabled_selectors (trace (ask_user_questions compliant fresh).1) ∧
  "archinstall-language" ∉ spec_menu_entries.
Proof.
  split; [by vm_compute|]. split.
  - vm_compute. apply list_elem_of_here.
  - refine (bool_decide_unpack _ _). by vm_compute.
Qed.

Lemma base_packages_then_base_services_witness :
  exit_hands_back compliant ∧
  perform_installation compliant mnt (configured ["alice"])
    = ((perform_installation compliant mnt (configured ["alice"])).1, Ok tt) ∧
  ∃ evs, trace (perform_installation compliant mnt (configured ["alice"])).1
           = trace (configured ["alice"]) ++ evs ∧
    preceded_by is_add_bootloader
      [add_additional_packages (VList base_packages);
       enable_service (VList base_services)] evs ∧
    (Ok tt = Ok tt →
     issued_in_a_row
       [add_additional_packages (VList base_packages);
        enable_service (VList base_services)] evs).
Proof.
  assert (exit_hands_back compliant) as Hexit by (intros h e; reflexivity).
  assert (perform_installation compliant mnt (configured ["alice"])
    = ((perform_installation compliant mnt (configured ["alice"])).1, Ok tt)) as Hrun
    by (vm_compute; reflexivity).
  split; [exact Hexit|]. split; [exact Hrun|].
  exact (base_packages_then_base_services compliant Hexit _ _ _ _ Hrun).
Defined.

Lemma blackarch_mirror_always_added_witness :
  exit_hands_back compliant ∧
  perform_installation compliant mnt (configured [])
    = ((perform_installation compliant mnt (configured [])).1, Ok tt) ∧
  ∃ evs, trace (perform_installation compliant mnt (configured [])).1
           = trace (configured []) ++ evs ∧
    preceded_by is_minimal_installation
      [add_custom_mirrors (VMirrors [blackarch_mirror])] evs ∧
    (Ok tt = Ok tt →
     ∃ testing multilib hostname locale_config,
       issued_in_a_row
         [add_custom_mirrors (VMirrors [blackarch_mirror]);
          minimal_installation testing multilib hostname locale_config] evs).
Proof.
  assert (exit_hands_back compliant) as Hexit by (intros h e; reflexivity).
  assert (perform_installation compliant mnt (configured [])
    = ((perform_installation compliant mnt (configured [])).1, Ok tt)) as Hrun
    by (vm_compute; reflexivity).
  split; [exact Hexit|]. split; [exact Hrun|].
  exact (blackarch_mirror_always_added compliant Hexit _ _ _ _ Hrun).
Defined.

Lemma default_kernel_is_linux_hardened_witness :
  arguments (configured ["alice"]) !! "kernels" = None ∧
  perform_installation compliant mnt (configured ["alice"])
    = ((perform_installation compliant mnt (configured ["alice"])).1, Ok tt) ∧
  ∃ evs, trace (perform_installation compliant mnt (configured ["alice"])).1
           = trace (configured ["alice"]) ++ evs ∧
    (∀ m dc de kernels x,
       (Installer_new m dc de kernels, x) ∈ evs → kernels = VList ["linux-hardened"]) ∧
    (Ok tt = Ok tt →
       ∃ dc de, Installer_new mnt dc de (VList ["linux-hardened"]) ∈ evs.*1).
Proof.
  assert (arguments (configured ["alice"]) !! "kernels" = None) as Hk
    by (vm_compute; reflexivity).
  assert (perform_installation compliant mnt (configured ["alice"])
    = ((perform_installation compliant mnt (configured ["alice"])).1, Ok tt)) as Hrun
    by (vm_compute; reflexivity).
  split; [exact Hk|]. split; [exact Hrun|].
  exact (default_kernel_is_linux_hardened compliant _ _ _ _ Hk Hrun).
Defined.

Lemma commands_follow_users_and_custom_commands_witness :
  exit_hands_back compliant ∧
  perform_installation compliant mnt (configured ["alice"; "bob"])
    = ((perform_installation compliant mnt (configured ["alice"; "bob"])).1, Ok tt) ∧
  commands_run (trace (perform_installation compliant mnt (configured ["alice"; "bob"])).1) =
    [VList install_paru; VList [mariadb_init];
     VList ["usermod -a -G docker alice"]; VList ["usermod -a -G docker bob"];
     VList [postgres_init]].
Proof.
  assert (exit_hands_back compliant) as Hexit by (intros h e; reflexivity).
  assert (perform_installation compliant mnt (configured ["alice"; "bob"])
    = ((perform_installation compliant mnt (configured ["alice"; "bob"])).1, Ok tt))
    as Hrun by (vm_compute; reflexivity).
  split; [exact Hexit|]. split; [exact Hrun|].
  exact (proj1 (commands_follow_users_and_custom_commands compliant Hexit) _ _ _ Hrun).
Defined.

(** The claim that any two configurations see the same command lists
    fails: two user lists give two different command lists. *)
Lemma commands_differ_between_user_lists :
  (perform_installation compliant mnt (configured ["alice"])).2 = Ok tt ∧
  (perform_installation compliant mnt (configured ["bob"])).2 = Ok tt ∧
  commands_run (trace (perform_installation compliant mnt (configured ["alice"])).1)
    ≠ commands_run (trace (perform_installation compliant mnt (configured ["bob"])).1).
Proof.
  split; [by vm_compute|]. split; [by vm_compute|]. vm_compute. discriminate.
Qed.

Lemma user_packages_forwarded_iff_witness :
  exit_hands_back compliant ∧
  arguments (configured ["alice"]) !! "packages" = Some (VList ["htop"]) ∧
  perform_installation compliant mnt (configured ["alice"])
    = ((perform_installation compliant mnt (configured ["alice"])).1, Ok tt) ∧
  (package_lists (trace (perform_installation compliant mnt (configured ["alice"])).1)
     = package_lists (trace (configured ["alice"])) ++ [base_packages; ["htop"]]
     ↔ ["htop"] ≠ [] ∧ head ["htop"] ≠ Some "") ∧
  (package_lists (trace (perform_installation compliant mnt (configured ["alice"])).1)
     = package_lists (trace (configured ["alice"])) ++ [base_packages]
     ↔ ¬ (["htop"] ≠ [] ∧ head ["htop"] ≠ Some "")).
Proof.
  assert (exit_hands_back compliant) as Hexit by (intros h e; reflexivity).
  assert (arguments (configured ["alice"]) !! "packages" = Some (VList ["htop"]))
    as Hp by (vm_compute; reflexivity).
  assert (perform_installation compliant mnt (configured ["alice"])
    = ((perform_installation compliant mnt (configured ["alice"])).1, Ok tt)) as Hrun
    by (vm_compute; reflexivity).
  split; [exact Hexit|]. split; [exact Hp|]. split; [exact Hrun|].
  exact (user_packages_forwarded_iff compliant Hexit _ _ _ _ Hp Hrun).
Defined.

(** A packages list that starts with the empty string is skipped as a whole,
    later entries included. *)
Lemma empty_first_package_skips_all :
  (perform_installation compliant mnt configured_with_empty_package).2 = Ok tt ∧
  package_lists
    (trace (perform_installation compliant mnt configured_with_empty_package).1)
    = [base_packages].
Proof. split; by vm_compute. Qed.

Lemma library_failures_propagate_witness :
  exit_hands_back sanity_check_failing ∧
  trace run_without_sanity.1 =
    trace (configured ["alice"]) ++ take 4 (trace run_without_sanity.1) ++
    (sanity_check, Raised (LibraryError "sanity_check"))
      :: drop 5 (trace run_without_sanity.1) ∧
  sanity_check ≠ drop_to_shell ∧
  run_without_sanity.2 = Exc (LibraryError "sanity_check") ∧
  (drop 5 (trace run_without_sanity.1) = [] ∨
   ∃ x, drop 5 (trace run_without_sanity.1)
          = [(Installer_exit (Some (LibraryError "sanity_check")), x)]).
Proof.
  assert (exit_hands_back sanity_check_failing) as Hexit
    by (intros h e; reflexivity).
  assert (trace run_without_sanity.1 =
    trace (configured ["alice"]) ++ take 4 (trace run_without_sanity.1) ++
    (sanity_check, Raised (LibraryError "sanity_check"))
      :: drop 5 (trace run_without_sanity.1))
    as Htr by (vm_compute; reflexivity).
  assert (sanity_check ≠ drop_to_shell) as Hc by discriminate.
  split; [exact Hexit|]. split; [exact Htr|]. split; [exact Hc|].
  exact (proj1 (library_failures_propagate sanity_check_failing Hexit)
           mnt (configured ["alice"]) run_without_sanity.1 run_without_sanity.2
           (surjective_pairing run_without_sanity) _ _ _ _ Htr Hc).
Defined.

Lemma shell_failure_is_swallowed_witness :
  perform_installation (shell_raising (LibraryError "shell")) mnt (configured ["alice"])
    = (run_with_broken_shell.1, run_with_broken_shell.2) ∧
  trace run_with_broken_shell.1 =
    trace (configured ["alice"]) ++ take 29 (trace run_with_broken_shell.1) ++
    (drop_to_shell, Raised (LibraryError "shell"))
      :: drop 30 (trace run_with_broken_shell.1) ∧
  is_Exception (LibraryError "shell") = true ∧
  (∃ x rest, drop 30 (trace run_with_broken_shell.1) = (Installer_exit None, x) :: rest) ∧
  (Forall returned (drop 30 (trace run_with_broken_shell.1)) →
   run_with_broken_shell.2 = Ok tt) ∧
  (∀ e', run_with_broken_shell.2 = Exc e' →
         ∃ c, last (drop 30 (trace run_with_broken_shell.1)) = Some (c, Raised e')).
Proof.
  assert (perform_installation (shell_raising (LibraryError "shell")) mnt
            (configured ["alice"])
          = (run_with_broken_shell.1, run_with_broken_shell.2)) as Hrun
    by (vm_compute; reflexivity).
  assert (trace run_with_broken_shell.1 =
    trace (configured ["alice"]) ++ take 29 (trace run_with_broken_shell.1) ++
    (drop_to_shell, Raised (LibraryError "shell"))
      :: drop 30 (trace run_with_broken_shell.1)) as Htr
    by (vm_compute; reflexivity).
  assert (is_Exception (LibraryError "shell") = true) as He by reflexivity.
  split; [exact Hrun|]. split; [exact Htr|]. split; [exact He|].
  exact (shell_failure_is_swallowed _ mnt _ _ _ _ _ _ Hrun Htr He).
Defined.

(** The claim that any exception of [drop_to_shell] is swallowed fails: a
    [KeyboardInterrupt] is not an [Exception] and reaches the caller. *)
Lemma keyboard_interrupt_escapes :
  (drop_to_shell, Raised KeyboardInterrupt) ∈ trace run_with_interrupted_shell.1 ∧
  run_with_interrupted_shell.2 = Exc KeyboardInterrupt.
Proof.
  split; [|by vm_compute].
  refine (bool_decide_unpack _ _). by vm_compute.
Qed.

Lemma phases_are_ordered_witness :
  script compliant fresh = ((script compliant fresh).1, Ok tt) ∧
  ∃ asked prepared installed,
    trace (script compliant fresh).1 = trace fresh ++ asked ++ prepared ++ installed ∧
    all_in Asking asked ∧ all_in Preparing prepared ∧ all_in Installing installed ∧
    (prepared ++ installed ≠ [] → asked.*1 = menu_calls ∧ Forall returned asked) ∧
    (installed ≠ [] →
     ∃ v, last prepared = Some (perform_filesystem_operations, Returned v)).
Proof.
  assert (script compliant fresh = ((script compliant fresh).1, Ok tt)) as Hrun
    by (vm_compute; reflexivity).
  split; [exact Hrun|].
  exact (phases_are_ordered compliant fresh _ _ Hrun).
Defined.

(** The question phase does write the bag: the menu fills it. *)
Lemma questions_fill_the_bag :
  arguments fresh !! "bootloader" = None ∧
  arguments (ask_user_questions compliant fresh).1 !! "bootloader"
    = Some (VBootloader Grub).
Proof. split; vm_compute; reflexivity. Qed.

(** ** More concrete runs *)

(** The theorems on the configuration at work on a configuration with
    every optional entry set. *)

Ltac by_computation := refine (bool_decide_unpack _ _); vm_compute; exact I.

Lemma disk_steps_follow_the_layout_witness :
  generate_key_files ∈ installation_calls compliant mnt fully_configured ∧
  (∃ c, arguments fully_configured !! "disk_config" = Some (VDiskLayout c) ∧
        config_type c ≠ Pre_mount) ∧
  (∃ e, arguments fully_configured !! "disk_encryption" = Some (VDiskEncryption e) ∧
        encryption_type e ≠ NoEncryption).
Proof.
  assert (generate_key_files ∈ installation_calls compliant mnt fully_configured)
    as Hcall by by_computation.
  split; [exact Hcall|].
  exact (proj2 (disk_steps_follow_the_layout compliant mnt fully_configured) Hcall).
Defined.

Lemma mirror_calls_follow_mirror_config_witness :
  set_mirrors (default VNone (arguments fully_configured !! "mirror_config"))
    ∈ installation_calls compliant mnt fully_configured ∧
  arguments fully_configured !! "mirror_config"
    = Some (default VNone (arguments fully_configured !! "mirror_config")) ∧
  truthy (default VNone (arguments fully_configured !! "mirror_config")) = true.
Proof.
  assert (set_mirrors (default VNone (arguments fully_configured !! "mirror_config"))
            ∈ installation_calls compliant mnt fully_configured)
    as Hcall by by_computation.
  split; [exact Hcall|].
  exact (proj2 (proj2 (mirror_calls_follow_mirror_config compliant mnt fully_configured))
           _ Hcall).
Defined.

Lemma installer_is_built_from_the_configuration_witness :
  Installer_new mnt
      (default VNone (arguments fully_configured !! "disk_config"))
      (default VNone (arguments fully_configured !! "disk_encryption"))
      (VList ["linux"])
    ∈ installation_calls compliant mnt fully_configured ∧
  mnt = mnt ∧
  arguments fully_configured !! "disk_config"
    = Some (default VNone (arguments fully_configured !! "disk_config")) ∧
  default VNone (arguments fully_configured !! "disk_encryption")
    = default VNone (arguments fully_configured !! "disk_encryption") ∧
  VList ["linux"]
    = default (VList ["linux-hardened"]) (arguments fully_configured !! "kernels").
Proof.
  assert (Installer_new mnt
            (default VNone (arguments fully_configured !! "disk_config"))
            (default VNone (arguments fully_configured !! "disk_encryption"))
            (VList ["linux"])
            ∈ installation_calls compliant mnt fully_configured)
    as Hcall by by_computation.
  split; [exact Hcall|].
  exact (proj1 (installer_is_built_from_the_configuration compliant mnt fully_configured)
           _ _ _ _ Hcall).
Defined.

Lemma only_configured_packages_and_services_witness :
  enable_service (VList ["docker"])
    ∈ installation_calls compliant mnt fully_configured ∧
  (VList ["docker"] = VList base_services ∨
   (arguments fully_configured !! "services" = Some (VList ["docker"]) ∧
    truthy (VList ["docker"]) = true)).
Proof.
  assert (enable_service (VList ["docker"])
            ∈ installation_calls compliant mnt fully_configured)
    as Hcall by by_computation.
  split; [exact Hcall|].
  exact (proj2 (only_configured_packages_and_services compliant mnt fully_configured)
           _ Hcall).
Defined.

Lemma accounts_follow_the_configuration_witness :
  user_set_pw "root" (VStr "secret")
    ∈ installation_calls compliant mnt fully_configured ∧
  "root" = "root" ∧
  arguments fully_configured !! "!root-password" = Some (VStr "secret") ∧
  ∃ n, py_len (VStr "secret") = Ok n ∧ n ≠ 0.
Proof.
  assert (user_set_pw "root" (VStr "secret")
            ∈ installation_calls compliant mnt fully_configured)
    as Hcall by by_computation.
  split; [exact Hcall|].
  exact (proj2 (accounts_follow_the_configuration compliant mnt fully_configured)
           _ _ Hcall).
Defined.

Lemma optional_steps_follow_the_configuration_witness :
  setup_swap "zram" ∈ installation_calls compliant mnt fully_configured ∧
  "zram" = "zram" ∧
  ∃ swap, arguments fully_configured !! "swap" = Some swap ∧ truthy swap = true.
Proof.
  assert (setup_swap "zram" ∈ installation_calls compliant mnt fully_configured)
    as Hcall by by_computation.
  split; [exact Hcall|].
  exact (proj1 (optional_steps_follow_the_configuration compliant mnt fully_configured)
           _ Hcall).
Defined.

Lemma silent_run_asks_nothing_witness :
  truthy (default VNone (arguments silently_configured !! "silent")) = true ∧
  Forall (λ c, ¬ interactive c) (installation_calls compliant mnt silently_configured).
Proof.
  assert (truthy (default VNone (arguments silently_configured !! "silent")) = true)
    as Hsilent by (vm_compute; reflexivity).
  split; [exact Hsilent|].
  exact (silent_run_asks_nothing compliant mnt silently_configured Hsilent).
Defined.

Lemma espeakup_only_with_accessibility_tools_witness :
  installation_events with_screen_reader mnt (configured ["alice"])
    = take 16 (installation_events with_screen_reader mnt (configured ["alice"]))
      ++ (enable_espeakup, Returned VNone)
         :: drop 17 (installation_events with_screen_reader mnt (configured ["alice"])) ∧
  ∃ pre' v,
    take 16 (installation_events with_screen_reader mnt (configured ["alice"]))
      = pre' ++ [(accessibility_tools_in_use, Returned v)] ∧
    truthy v = true.
Proof.
  assert (installation_events with_screen_reader mnt (configured ["alice"])
    = take 16 (installation_events with_screen_reader mnt (configured ["alice"]))
      ++ (enable_espeakup, Returned VNone)
         :: drop 17 (installation_events with_screen_reader mnt (configured ["alice"])))
    as Hevents by (vm_compute; reflexivity).
  split; [exact Hevents|].
  exact (espeakup_only_with_accessibility_tools with_screen_reader mnt
           (configured ["alice"]) _ _ _ Hevents).
Defined.

Lemma grub_only_on_uefi_witness :
  arguments (configured ["alice"]) !! "packages" ≠ Some (VStr "grub") ∧
  installation_events compliant mnt (configured ["alice"])
    = take 8 (installation_events compliant mnt (configured ["alice"]))
      ++ (add_additional_packages (VStr "grub"), Returned VNone)
         :: drop 9 (installation_events compliant mnt (configured ["alice"])) ∧
  ∃ pre' v,
    take 8 (installation_events compliant mnt (configured ["alice"]))
      = pre' ++ [(has_uefi, Returned v)] ∧
    truthy v = true.
Proof.
  assert (arguments (configured ["alice"]) !! "packages" ≠ Some (VStr "grub"))
    as Hpackages by (vm_compute; discriminate).
  assert (installation_events compliant mnt (configured ["alice"])
    = take 8 (installation_events compliant mnt (configured ["alice"]))
      ++ (add_additional_packages (VStr "grub"), Returned VNone)
         :: drop 9 (installation_events compliant mnt (configured ["alice"])))
    as Hevents by (vm_compute; reflexivity).
  split; [exact Hpackages|]. split; [exact Hevents|].
  exact (grub_only_on_uefi compliant mnt (configured ["alice"]) Hpackages
           _ _ _ Hevents).
Defined.

Lemma chroot_shell_needs_a_yes_witness :
  installation_events compliant mnt (configured ["alice"])
    = take 29 (installation_events compliant mnt (configured ["alice"]))
      ++ (drop_to_shell, Returned VNone)
         :: drop 30 (installation_events compliant mnt (configured ["alice"])) ∧
  ∃ pre' choice yes,
    take 29 (installation_events compliant mnt (configured ["alice"]))
      = pre' ++ [(Menu_run, Returned choice); (Menu_yes, Returned yes)] ∧
    py_eq choice yes = true.
Proof.
  assert (installation_events compliant mnt (configured ["alice"])
    = take 29 (installation_events compliant mnt (configured ["alice"]))
      ++ (drop_to_shell, Returned VNone)
         :: drop 30 (installation_events compliant mnt (configured ["alice"])))
    as Hevents by (vm_compute; reflexivity).
  split; [exact Hevents|].
  exact (chroot_shell_needs_a_yes compliant mnt (configured ["alice"]) _ _ _ Hevents).
Defined.

Lemma installation_depends_on_read_keys_witness :
  trace fully_configured = trace configured_elsewhere ∧
  (∀ k, k ∈ ["disk_config"; "additional-repositories"; "locale_config";
             "disk_encryption"; "kernels"; "mirror_config"; "hostname"; "swap";
             "bootloader"; "!users"; "packages"; "timezone"; "ntp";
             "!root-password"; "services"; "custom-commands"; "silent"] →
        arguments fully_configured !! k = arguments configured_elsewhere !! k) ∧
  (perform_installation compliant mnt fully_configured).2
    = (perform_installation compliant mnt configured_elsewhere).2 ∧
  trace (perform_installation compliant mnt fully_configured).1
    = trace (perform_installation compliant mnt configured_elsewhere).1.
Proof.
  assert (trace fully_configured = trace configured_elsewhere) as Htrace
    by reflexivity.
  assert (∀ k, k ∈ ["disk_config"; "additional-repositories"; "locale_config";
             "disk_encryption"; "kernels"; "mirror_config"; "hostname"; "swap";
             "bootloader"; "!users"; "packages"; "timezone"; "ntp";
             "!root-password"; "services"; "custom-commands"; "silent"] →
        arguments fully_configured !! k = arguments configured_elsewhere !! k)
    as Hagree.
  { intros k Hk.
    repeat (apply elem_of_cons in Hk as [->|Hk]; [vm_compute; reflexivity|]).
    by apply elem_of_nil in Hk. }
  split; [exact Htrace|]. split; [exact Hagree|].
  exact (installation_depends_on_read_keys compliant mnt fully_configured
           configured_elsewhere Htrace Hagree).
Defined.

Lemma exit_is_called_once_iff_entered_witness :
  entered (installation_events compliant mnt fully_configured) ∧
  ∃ exc, exits (installation_events compliant mnt fully_configured) = [exc].
Proof.
  assert (entered (installation_events compliant mnt fully_configured)) as Hentered
    by (exists VNone; by_computation).
  split; [exact Hentered|].
  exact (proj1 (exit_is_called_once_iff_entered compliant mnt fully_configured)
           Hentered).
Defined.

Lemma nothing_is_built_without_layout_or_locale_witness :
  ask_user_questions with_idle_menu fresh
    = ((ask_user_questions with_idle_menu fresh).1, Ok tt) ∧
  arguments (ask_user_questions with_idle_menu fresh).1 !! "disk_config" = None ∧
  script with_idle_menu fresh
    = ((ask_user_questions with_idle_menu fresh).1, Exc (KeyError "disk_config")).
Proof.
  assert (ask_user_questions with_idle_menu fresh
            = ((ask_user_questions with_idle_menu fresh).1, Ok tt)) as Hask
    by (vm_compute; reflexivity).
  assert (arguments (ask_user_questions with_idle_menu fresh).1 !! "disk_config" = None)
    as Hmissing by (vm_compute; reflexivity).
  split; [exact Hask|]. split; [exact Hmissing|].
  exact (proj2 (nothing_is_built_without_layout_or_locale with_idle_menu)
           fresh _ Hask Hmissing).
Defined.

Lemma completion_needs_a_well_formed_configuration_witness :
  exit_hands_back compliant ∧
  perform_installation compliant mnt (configured ["alice"])
    = ((perform_installation compliant mnt (configured ["alice"])).1, Ok tt) ∧
  (∃ c, arguments (configured ["alice"]) !! "disk_config" = Some (VDiskLayout c)) ∧
  (∃ lc, arguments (configured ["alice"]) !! "locale_config" = Some (VLocale lc)) ∧
  (∃ b, arguments (configured ["alice"]) !! "bootloader" = Some b) ∧
  (∃ testing,
     py_in "testing"
       (default (VList []) (arguments (configured ["alice"]) !! "additional-repositories"))
       = Ok testing) ∧
  (∃ items,
     py_iter (default (VList []) (arguments (configured ["alice"]) !! "!users"))
       = Ok items) ∧
  arguments (configured ["alice"]) !! "!users" ≠ Some VNone.
Proof.
  assert (exit_hands_back compliant) as Hexit by (intros h e; reflexivity).
  assert (perform_installation compliant mnt (configured ["alice"])
    = ((perform_installation compliant mnt (configured ["alice"])).1, Ok tt)) as Hrun
    by (vm_compute; reflexivity).
  split; [exact Hexit|]. split; [exact Hrun|].
  exact (completion_needs_a_well_formed_configuration compliant mnt
           (configured ["alice"]) _ Hexit Hrun).
Defined.

Lemma menu_runs_last_with_three_mandatory_entries_witness :
  question_events compliant fresh
    = take 19 (question_events compliant fresh)
      ++ (GlobalMenu_run, Returned VNone) :: drop 20 (question_events compliant fresh) ∧
  drop 20 (question_events compliant fresh) = [] ∧
  Forall returned (take 19 (question_events compliant fresh)) ∧
  (take 19 (question_events compliant fresh)).*1
    = GlobalMenu_new :: ((λ entry, GlobalMenu_enable entry.1 entry.2) <$> menu_entries).
Proof.
  assert (question_events compliant fresh
    = take 19 (question_events compliant fresh)
      ++ (GlobalMenu_run, Returned VNone) :: drop 20 (question_events compliant fresh))
    as Hevents by (vm_compute; reflexivity).
  split; [exact Hevents|].
  exact (proj1 (menu_runs_last_with_three_mandatory_entries compliant fresh)
           _ _ _ Hevents).
Defined.

Lemma handler_and_installer_share_the_configuration_witness :
  Installer_new (VPath "/target")
      (default VNone (arguments configured_elsewhere !! "disk_config"))
      (default VNone (arguments configured_elsewhere !! "disk_encryption"))
      (VList ["linux"])
    ∈ top_level_calls compliant configured_elsewhere ∧
  VPath "/target"
    = default (VPath "/mnt") (storage configured_elsewhere !! "MOUNT_POINT") ∧
  arguments configured_elsewhere !! "disk_config"
    = Some (default VNone (arguments configured_elsewhere !! "disk_config")) ∧
  default VNone (arguments configured_elsewhere !! "disk_encryption")
    = default VNone (arguments configured_elsewhere !! "disk_encryption").
Proof.
  assert (Installer_new (VPath "/target")
            (default VNone (arguments configured_elsewhere !! "disk_config"))
            (default VNone (arguments configured_elsewhere !! "disk_encryption"))
            (VList ["linux"])
            ∈ top_level_calls compliant configured_elsewhere)
    as Hcall by by_computation.
  split; [exact Hcall|].
  exact (proj2 (handler_and_installer_share_the_configuration compliant
                  configured_elsewhere) _ _ _ _ Hcall).
Defined.


Lemma typed_configuration_fails_only_with_the_library_witness :
  typed (arguments fully_configured) ∧
  ((perform_installation sanity_check_failing mnt fully_configured).2 = Ok tt ∨
   ∃ c e, (c, Raised e) ∈ installation_events sanity_check_failing mnt fully_configured).
Proof.
  assert (typed (arguments fully_configured)) as Htyped.
  { unfold typed.
    split; [eexists; vm_compute; reflexivity|].
    split; [eexists; vm_compute; reflexivity|].
    split; [eexists; vm_compute; reflexivity|].
    repeat split; intros v; vm_compute; intros [= <-]; eauto. }
  split; [exact Htyped|].
  exact (typed_configuration_fails_only_with_the_library sanity_check_failing mnt
           fully_configured Htyped).
Defined.
